(** * slidecat: splitting, merging, extracting and verifying PPTX decks

    A shallow embedding of [src/slidecat/core.py] and of the [extract]
    command of [src/slidecat/cli.py].

    - Python exceptions are values of type [exn]; a computation that may
      raise returns a [result].
    - The presentation library (python-pptx) is modelled by the module
      [Pptx]: a deck is its slide-id list, the relationships of the
      presentation part that lead to slides, and its slide masters with
      their layouts.
    - The file system is a finite map from paths to file contents; the
      functions of [core.py] run in a state-and-exception monad over it.
      A raised exception keeps the effects that happened before it.
      Directories are not modelled: [mkdir(parents=True, exist_ok=True)]
      succeeds and changes nothing, and a path names at most one file. *)

From Stdlib Require Import ZArith Lia Ascii.
From stdpp Require Import gmap strings list pretty.

Open Scope string_scope.
Open Scope list_scope.
Open Scope Z_scope.

(** ** Python values and exceptions *)

Module Py.

Inductive exn_class :=
  | FileNotFoundError
  | ValueError
  | IndexError
  | KeyError
  | TypeError
  | PackageNotFoundError
  | InvalidXmlError
  | ProgrammingError
  | SystemExit.

Global Instance exn_class_eq_dec : EqDecision exn_class.
Proof. solve_decision. Defined.

(** [SystemExit] derives from [BaseException] only; every other class used
    here derives from [Exception]. *)
Definition is_Exception (c : exn_class) : bool :=
  match c with SystemExit => false | _ => true end.

Record exn := mk_exn { exn_cls : exn_class; exn_msg : string }.

Global Instance exn_eq_dec : EqDecision exn.
Proof. solve_decision. Defined.

Inductive result (A : Type) :=
  | Ok (a : A)
  | Raise (e : exn).
Global Arguments Ok {A} a.
Global Arguments Raise {A} e.

Definition raise {A} (c : exn_class) (m : string) : result A :=
  Raise (mk_exn c m).

Global Instance result_ret : MRet result := λ A a, Ok a.
Global Instance result_fmap : FMap result := λ A B f x,
  match x with Ok a => Ok (f a) | Raise e => Raise e end.
Global Instance result_bind : MBind result := λ A B f x,
  match x with Ok a => f a | Raise e => Raise e end.

(** [try: body  except cls: handler]; the handler sees the exception. *)
Definition try_except {A} (body : result A) (catches : exn_class → bool)
    (handler : exn → result A) : result A :=
  match body with
  | Ok a => Ok a
  | Raise e => if catches (exn_cls e) then handler e else Raise e
  end.

(** [for x in xs: acc = body(acc, x)], stopping at the first exception. *)
Fixpoint for_fold {A B} (body : A → B → result A) (xs : list B) (acc : A)
    : result A :=
  match xs with
  | [] => Ok acc
  | x :: xs' => acc' ← body acc x; for_fold body xs' acc'
  end.

(** *** Integers as text *)

(** [str(n)] for an [int]. *)
Definition str_int (n : Z) : string := pretty n.

Definition is_digit (c : Ascii.ascii) : bool :=
  let n := Ascii.N_of_ascii c in ((48 <=? n) && (n <=? 57))%N.

Definition digit_val (c : Ascii.ascii) : N := (Ascii.N_of_ascii c - 48)%N.

Fixpoint zeros (k : nat) : string :=
  match k with O => "" | S k' => String "0"%char (zeros k') end.

(** [format(n, "03d")]: the decimal text of [n], filled with zeros after the
    sign up to a width of three characters; longer numbers are not cut. *)
Definition fmt_03d (n : Z) : string :=
  if n <? 0
  then let s := str_int (- n) in "-" +:+ zeros (2 - String.length s) +:+ s
  else let s := str_int n in zeros (3 - String.length s) +:+ s.

(** The digits the text starts with, read as a number in base ten. *)
Fixpoint leading_number (acc : N) (s : string) : N :=
  match s with
  | "" => acc
  | String c r =>
      if is_digit c then leading_number (acc * 10 + digit_val c)%N r else acc
  end.

(** *** [int(text)] *)

Definition is_space (c : Ascii.ascii) : bool :=
  let n := Ascii.N_of_ascii c in
  ((9 <=? n) && (n <=? 13) || (28 <=? n) && (n <=? 32))%N.

Fixpoint lstrip (s : string) : string :=
  match s with
  | String c r => if is_space c then lstrip r else s
  | "" => ""
  end.

Fixpoint rstrip (s : string) : string :=
  match s with
  | "" => ""
  | String c r =>
      match rstrip r with
      | "" => if is_space c then "" else String c ""
      | r' => String c r'
      end
  end.

Definition strip (s : string) : string := rstrip (lstrip s).

(** Decimal digits, where single underscores may separate digits.
    [prev] tells whether the character before was a digit. *)
Fixpoint int_digits (prev : bool) (acc : N) (s : string) : option N :=
  match s with
  | "" => if prev then Some acc else None
  | String c r =>
      if is_digit c then int_digits true (acc * 10 + digit_val c)%N r
      else if (Ascii.eqb c "_"%char && prev)%bool then
        match r with
        | String c' _ => if is_digit c' then int_digits false acc r else None
        | "" => None
        end
      else None
  end.

(** [repr(text)] for a text of printable characters without quotes or
    backslashes: the text between single quotes. *)
Definition repr (s : string) : string := "'" +:+ s +:+ "'".

(** [int(s)] in base ten on ASCII text: surrounding white space is
    dropped, one sign is allowed. *)
Definition int (s : string) : result Z :=
  let t := strip s in
  let '(neg, body) :=
    match t with
    | String "-"%char r => (true, r)
    | String "+"%char r => (false, r)
    | _ => (false, t)
    end in
  match int_digits false 0%N body with
  | Some v => Ok (if neg : bool then - Z.of_N v else Z.of_N v)
  | None =>
      raise ValueError ("invalid literal for int() with base 10: " +:+ repr s)
  end.

(** *** Ranges *)

(** [range(lo, hi)] *)
Definition range (lo hi : Z) : list Z :=
  (λ k : nat, lo + Z.of_nat k) <$> seq 0 (Z.to_nat (hi - lo)).

(** [range(lo, hi, step)] for a positive step. *)
Definition range_step (lo hi step : Z) : list Z :=
  (λ k : nat, lo + Z.of_nat k * step)
    <$> seq 0 (Z.to_nat ((hi - lo + step - 1) `div` step)).

(** [range(len(xs))]: the positions of a sequence. *)
Definition range_len (n : nat) : list nat := seq 0 n.

(** *** Text *)

(** [c in s] for a single character. *)
Fixpoint contains_char (c : Ascii.ascii) (s : string) : bool :=
  match s with
  | "" => false
  | String d r => Ascii.eqb c d || contains_char c r
  end.

(** [s.split(c, 1)] *)
Fixpoint split_once (c : Ascii.ascii) (s : string) : list string :=
  match s with
  | "" => [""]
  | String d r =>
      if Ascii.eqb c d then [""; r]
      else match split_once c r with
           | a :: rest => String d a :: rest
           | [] => []
           end
  end.

(** [xs[i]] for a position counted from the front. *)
Definition getitem {A} (xs : list A) (i : nat) : result A :=
  match xs !! i with
  | Some x => Ok x
  | None => raise IndexError "list index out of range"
  end.

End Py.
Export Py.

(** ** State and exceptions *)

Module St.

(** A computation over a mutable state [S] that returns or raises. *)
Definition ST (S A : Type) : Type := S → result A * S.

Global Instance ST_ret {S} : MRet (ST S) := λ A a s, (Ok a, s).
Global Instance ST_bind {S} : MBind (ST S) := λ A B f m s,
  match m s with
  | (Ok a, s') => f a s'
  | (Raise e, s') => (Raise e, s')
  end.

Definition lift {S A} (r : result A) : ST S A := λ s, (r, s).

Definition st_raise {S A} (c : exn_class) (m : string) : ST S A :=
  lift (raise c m).

Definition st_try_except {S A} (body : ST S A) (catches : exn_class → bool)
    (handler : exn → ST S A) : ST S A := λ s,
  match body s with
  | (Ok a, s') => (Ok a, s')
  | (Raise e, s') =>
      if catches (exn_cls e) then handler e s' else (Raise e, s')
  end.

(** [try] with two [except] clauses: the first that matches handles. *)
Definition st_try_except2 {S A} (body : ST S A)
    (catches1 : exn_class → bool) (handler1 : exn → ST S A)
    (catches2 : exn_class → bool) (handler2 : exn → ST S A) : ST S A := λ s,
  match body s with
  | (Ok a, s') => (Ok a, s')
  | (Raise e, s') =>
      if catches1 (exn_cls e) then handler1 e s'
      else if catches2 (exn_cls e) then handler2 e s'
      else (Raise e, s')
  end.

(** [for x in xs: acc = body(acc, x)] *)
Fixpoint st_fold {S A B} (body : A → B → ST S A) (xs : list B) (acc : A)
    : ST S A :=
  match xs with
  | [] => mret acc
  | x :: xs' => acc' ← body acc x; st_fold body xs' acc'
  end.

(** [for x in xs: body(x)] *)
Fixpoint st_for {S B} (body : B → ST S ()) (xs : list B) : ST S () :=
  match xs with
  | [] => mret ()
  | x :: xs' => body x;; st_for body xs'
  end.

End St.
Export St.

(** ** The presentation library *)

Module Pptx.

(** A shape of a shape tree: an XML subtree, kept as text, and the
    placeholder index when the shape is a placeholder (0 is the title). *)
Record shape := mk_shape { ph_idx : option nat; shape_xml : string }.

Global Instance shape_eq_dec : EqDecision shape.
Proof. solve_decision. Defined.

(** [copy.deepcopy(el)]: a new element equal to [el] that shares nothing
    with it. Values are not shared here, so the copy is the value. *)
Definition deepcopy (el : shape) : shape :=
  mk_shape (ph_idx el) (shape_xml el).

Inductive color :=
  | NoColor
  | RGB (hex : string)
  | ThemeColor (name : string).

Inductive fill :=
  | Inherited
  | NoFill
  | SolidFill (c : color)
  | PatternFill (fg : color)
  | GradientFill
  | PictureFill.

(** [fill.fore_color] *)
Definition fore_color (f : fill) : result color :=
  match f with
  | SolidFill c | PatternFill c => Ok c
  | _ => raise TypeError
      "fill type has no foreground color, call .solid() or .patterned() first"
  end.

(** [color.rgb] *)
Definition rgb (c : color) : result string :=
  match c with
  | RGB hex => Ok hex
  | _ => raise TypeError "no .rgb property on color type"
  end.

Record layout := mk_layout {
  layout_name : string;
  layout_placeholders : list shape }.

Record master := mk_master { master_layouts : list layout }.

(** A slide part. [spTree] is [None] when the slide's XML lacks the
    required shape tree, which makes [slide.shapes] raise. *)
Record slide := mk_slide {
  slide_layout : string;
  spTree : option (list shape);
  background : fill }.

(** [slide.shapes] *)
Definition shapes (s : slide) : result (list shape) :=
  match spTree s with
  | Some sp => Ok sp
  | None =>
      raise InvalidXmlError "required ``<p:cSld>`` child element not present"
  end.

(** [shapes.title]: the first placeholder with index 0, if any. *)
Definition title (sp : list shape) : option shape :=
  List.find (λ el, bool_decide (ph_idx el = Some 0%nat)) sp.

(** [new_slide.shapes._spTree.append(newel)] *)
Definition spTree_append (newel : shape) : ST slide () := λ s,
  match spTree s with
  | Some sp =>
      (Ok (), mk_slide (slide_layout s) (Some (sp ++ [newel])) (background s))
  | None =>
      (raise InvalidXmlError
         "required ``<p:cSld>`` child element not present", s)
  end.

(** [slide.background.fill.solid()]: a solid fill without a colour yet. *)
Definition fill_solid : ST slide () := λ s,
  (Ok (), mk_slide (slide_layout s) (spTree s) (SolidFill NoColor)).

(** [slide.background.fill.fore_color.rgb = hex] *)
Definition set_fore_color_rgb (hex : string) : ST slide () := λ s,
  match fore_color (background s) with
  | Ok _ =>
      (Ok (), mk_slide (slide_layout s) (spTree s)
         (match background s with
          | PatternFill _ => PatternFill (RGB hex)
          | _ => SolidFill (RGB hex)
          end))
  | Raise e => (Raise e, s)
  end.

(** An opened presentation: the entries of the slide-id list (each is the
    relationship id of its slide), the relationships of the presentation
    part that lead to slide parts, and the slide masters. Relationships to
    other parts are left out. *)
Record deck := mk_deck {
  sldIdLst : list string;
  rels : gmap string slide;
  slide_masters : list master }.

(** [prs.slide_layouts]: the layouts of the first slide master. *)
Definition slide_layouts (prs : deck) : result (list layout) :=
  match slide_masters prs with
  | m :: _ => Ok (master_layouts m)
  | [] => raise IndexError "slide master index out of range"
  end.

(** [part.related_slide(rId)] *)
Definition related_slide (prs : deck) (rId : string) : result slide :=
  match rels prs !! rId with
  | Some s => Ok s
  | None => raise KeyError ("no relationship with key " +:+ repr rId)
  end.

(** [prs.slides], as the list of its slides in display order. The first
    access to [prs.slides] renames the slide parts and follows the
    relationship of every entry for that, so an entry without
    relationship makes the access itself raise. *)
Definition slides (prs : deck) : result (list slide) :=
  for_fold (λ acc rId, s ← related_slide prs rId; Ok (acc ++ [s]))
    (sldIdLst prs) [].

(** [len(prs.slides)] *)
Definition len_slides (prs : deck) : result nat :=
  ss ← slides prs; Ok (length ss).

(** The number of references to [rId] in the XML of the presentation. *)
Definition rel_ref_count (prs : deck) (rId : string) : nat :=
  length (filter (λ r, r = rId) (sldIdLst prs)).

(** [part.drop_rel(rId)]: the relationship goes unless it is referenced
    twice or more. *)
Definition drop_rel (rId : string) (prs : deck) : result deck :=
  if decide (rel_ref_count prs rId < 2)%nat then
    match rels prs !! rId with
    | Some _ =>
        Ok (mk_deck (sldIdLst prs) (delete rId (rels prs)) (slide_masters prs))
    | None => raise KeyError (repr rId)
    end
  else Ok prs.

(** [del prs.slides._sldIdLst[idx]] *)
Definition del_sldId (idx : nat) (prs : deck) : result deck :=
  if decide (idx < length (sldIdLst prs))%nat then
    Ok (mk_deck (delete idx (sldIdLst prs)) (rels prs) (slide_masters prs))
  else raise IndexError "list index out of range".

Definition rId_of (n : nat) : string := "rId" +:+ pretty n.

(** The next free relationship id: the candidates are tried from
    [len(rels) + 1] downwards. *)
Definition next_rId (rs : gmap string slide) : result string :=
  match list_find (λ n, rs !! rId_of n = None)
          (reverse (seq 1 (S (size rs)))) with
  | Some (_, n) => Ok (rId_of n)
  | None =>
      raise ProgrammingError
        "Impossible to have more distinct rIds than relationships"
  end.

(** [prs.slides.add_slide(slide_layout)]: a new slide part on the layout,
    with a copy of each placeholder of the layout in its shape tree, is
    related to the presentation and appended to the slide-id list. The
    new slide is named by its relationship id. *)
Definition add_slide (lay : layout) (prs : deck) : result (string * deck) :=
  slides prs;;
  rId ← next_rId (rels prs);
  let new_slide :=
    mk_slide (layout_name lay) (Some (deepcopy <$> layout_placeholders lay))
      Inherited in
  Ok (rId, mk_deck (sldIdLst prs ++ [rId]) (<[rId := new_slide]> (rels prs))
             (slide_masters prs)).

(** Run a mutation of the slide named [rId] inside the presentation. *)
Definition on_slide {A} (rId : string) (f : ST slide A) (prs : deck)
    : result (A * deck) :=
  s ← related_slide prs rId;
  let '(r, s') := f s in
  a ← r;
  Ok (a, mk_deck (sldIdLst prs) (<[rId := s']> (rels prs)) (slide_masters prs)).

(** *** Files *)

Inductive fcontent :=
  | PptxFile (prs : deck)
  | OtherFile (bytes : string).

(** A file system: the file found at each path. A path is the list of its
    components ([Path.parts]). *)
Abbreviation Path := (list string).
Abbreviation fs := (gmap (list string) fcontent).

(** [path.exists()] *)
Definition path_exists (p : Path) : ST fs bool := λ σ,
  (Ok (bool_decide (is_Some (σ !! p))), σ).

(** [path.mkdir(parents=True, exist_ok=True)] *)
Definition mkdir (p : Path) : ST fs () := λ σ, (Ok (), σ).

(** [Presentation(str(path))] *)
Definition Presentation (p : Path) : ST fs deck := λ σ,
  match σ !! p with
  | Some (PptxFile prs) => (Ok prs, σ)
  | _ => (raise PackageNotFoundError "Package not found", σ)
  end.

(** [prs.save(str(path))] *)
Definition save (prs : deck) (p : Path) : ST fs () := λ σ,
  (Ok (), <[p := PptxFile prs]> σ).

(** *** Paths *)

(** [path.name]: the last component. *)
Definition name (p : Path) : string := default "" (last p).

(** [path.parent] *)
Definition parent (p : Path) : Path := removelast p.

(** [dir / file_name] *)
Definition joinpath (p : Path) (file_name : string) : Path := p ++ [file_name].

(** The text before the last dot and the text from that dot on. *)
Fixpoint rsplit_dot (s : string) : option (string * string) :=
  match s with
  | "" => None
  | String c r =>
      match rsplit_dot r with
      | Some (a, b) => Some (String c a, b)
      | None => if Ascii.eqb c "."%char then Some ("", s) else None
      end
  end.

(** [path.stem]: the name without its suffix; a dot that starts or ends
    the name does not begin a suffix. *)
Definition stem (p : Path) : string :=
  match rsplit_dot (name p) with
  | Some (a, b) =>
      if ((0 <? String.length a) && (1 <? String.length b))%nat
      then a else name p
  | None => name p
  end.

(** [str(path)] *)
Fixpoint str_path (p : Path) : string :=
  match p with
  | [] => "."
  | [a] => a
  | a :: rest => (if String.eqb a "/" then a else a +:+ "/") +:+ str_path rest
  end.

End Pptx.
Export Pptx.

(** ** [core.py] *)

Module Core.

(** *** The slide-retention steps of [split_presentation] and
    [extract_slides] *)

(** The body of [for slide_idx in reversed(slides_to_remove)]. *)
Definition remove_slide (new_prs : deck) (slide_idx : nat) : result deck :=
  rId ← getitem (sldIdLst new_prs) slide_idx;
  new_prs ← drop_rel rId new_prs;
  del_sldId slide_idx new_prs.

(** From [slides_to_remove = [...]] to the end of the removal loop. *)
Definition retain_slides (slides_to_keep : gset Z) (new_prs : deck)
    : result deck :=
  n ← len_slides new_prs;
  let slides_to_remove :=
    filter (λ i : nat, Z.of_nat i ∉ slides_to_keep) (range_len n) in
  for_fold remove_slide (reverse slides_to_remove) new_prs.

(** *** [split_presentation] *)

Definition split_file_name (stem : string) (chunk_size start_idx end_idx : Z)
    : string :=
  if chunk_size =? 1
  then stem +:+ "_slide_" +:+ fmt_03d (start_idx + 1) +:+ ".pptx"
  else stem +:+ "_slides_" +:+ fmt_03d (start_idx + 1) +:+ "-"
         +:+ fmt_03d end_idx +:+ ".pptx".

(** The body of [for start_idx in range(0, total_slides, chunk_size)].
    The counter [chunk_num] is never read and is left out. *)
Definition split_chunk (input_file output_dir : Path) (stem : string)
    (chunk_size total_slides : Z) (created_files : list Path) (start_idx : Z)
    : ST fs (list Path) :=
  let end_idx := Z.min (start_idx + chunk_size) total_slides in
  new_prs ← Presentation input_file;
  let slides_to_keep : gset Z := list_to_set (range start_idx end_idx) in
  new_prs ← lift (retain_slides slides_to_keep new_prs);
  let output_file :=
    joinpath output_dir (split_file_name stem chunk_size start_idx end_idx) in
  save new_prs output_file;;
  mret (created_files ++ [output_file]).

Definition split_presentation (input_file output_dir : Path)
    (chunk_size : option Z) : ST fs (list Path) :=
  found ← path_exists input_file;
  if negb found then
    st_raise FileNotFoundError
      ("Input file not found: " +:+ str_path input_file)
  else
  mkdir output_dir;;
  prs ← Presentation input_file;
  n ← lift (len_slides prs);
  let total_slides := Z.of_nat n in
  if total_slides =? 0 then
    st_raise ValueError ("No slides found in " +:+ str_path input_file)
  else
  match chunk_size with
  | Some c =>
      if c <? 1 then
        st_raise ValueError
          ("Chunk size must be at least 1, got " +:+ str_int c)
      else
        st_fold (split_chunk input_file output_dir (stem input_file)
                   c total_slides)
          (range_step 0 total_slides c) []
  | None =>
      st_fold (split_chunk input_file output_dir (stem input_file)
                 1 total_slides)
        (range_step 0 total_slides 1) []
  end.

(** *** [merge_presentations] *)

(** [try: layouts[6]  except IndexError: layouts[0]] *)
Definition blank_layout_of (merged_prs : deck) : result layout :=
  try_except
    (layouts ← slide_layouts merged_prs; getitem layouts 6)
    (λ c, bool_decide (c = IndexError))
    (λ _, layouts ← slide_layouts merged_prs; getitem layouts 0).

(** The truth value of [slide.background]: the object defines neither
    [__bool__] nor [__len__]. *)
Definition background_truthy (s : slide) : bool := true.

(** The [try] block that copies the background, with its bare [except]. *)
Definition copy_background (src : slide) : ST slide () :=
  st_try_except
    (fill_solid;;
     hex ← lift (c ← fore_color (background src); rgb c);
     set_fore_color_rgb hex)
    (λ _, true)
    (λ _, mret ()).

(** The body of [for slide in prs.slides]. *)
Definition merge_slide (merged_prs : deck) (src : slide) : result deck :=
  blank_layout ← blank_layout_of merged_prs;
  '(new_slide, merged_prs) ← add_slide blank_layout merged_prs;
  sp ← shapes src;
  merged_prs ←
    for_fold (λ prs el,
                let newel := deepcopy el in
                snd <$> on_slide new_slide (spTree_append newel) prs)
      sp merged_prs;
  if background_truthy src
  then snd <$> on_slide new_slide (copy_background src) merged_prs
  else Ok merged_prs.

(** The body of [for input_file in input_files[1:]]. *)
Definition merge_file (merged_prs : deck) (input_file : Path) : ST fs deck :=
  prs ← Presentation input_file;
  ss ← lift (slides prs);
  lift (for_fold merge_slide ss merged_prs).

Definition merge_presentations (input_files : list Path) (output_file : Path)
    : ST fs Path :=
  match input_files with
  | [] => st_raise ValueError "No input files provided"
  | first :: remaining =>
      st_for (λ file,
                found ← path_exists file;
                if negb found then
                  st_raise FileNotFoundError
                    ("Input file not found: " +:+ str_path file)
                else mret ())
        input_files;;
      merged_prs ← Presentation first;
      merged_prs ← st_fold merge_file remaining merged_prs;
      mkdir (parent output_file);;
      save merged_prs output_file;;
      mret output_file
  end.

(** *** [extract_slides] *)

Definition extract_slides (input_file output_file : Path) (start : Z)
    (end_ : option Z) : ST fs Path :=
  found ← path_exists input_file;
  if negb found then
    st_raise FileNotFoundError
      ("Input file not found: " +:+ str_path input_file)
  else
  prs ← Presentation input_file;
  n ← lift (len_slides prs);
  let total_slides := Z.of_nat n in
  if total_slides =? 0 then
    st_raise ValueError ("No slides found in " +:+ str_path input_file)
  else
  if (start <? 1) || (total_slides <? start) then
    st_raise ValueError
      ("Start slide " +:+ str_int start +:+ " is out of range (1-"
         +:+ str_int total_slides +:+ ")")
  else
  let end_ := default total_slides end_ in
  if (end_ <? start) || (total_slides <? end_) then
    st_raise ValueError
      ("End slide " +:+ str_int end_ +:+ " is out of range ("
         +:+ str_int start +:+ "-" +:+ str_int total_slides +:+ ")")
  else
  new_prs ← Presentation input_file;
  let slides_to_keep : gset Z := list_to_set (range (start - 1) end_) in
  new_prs ← lift (retain_slides slides_to_keep new_prs);
  mkdir (parent output_file);;
  save new_prs output_file;;
  mret output_file.

(** *** [verify_presentation] *)

Record slide_info := mk_slide_info {
  info_number : nat;
  info_shapes : nat;
  info_has_title : bool;
  info_error : option string }.

Record report := mk_report {
  valid : bool;
  error : option string;
  n_slides : nat;
  slide_details : list slide_info;
  n_layouts : nat;
  n_masters : nat }.

Definition set_info_shapes (n : nat) : ST slide_info () := λ i,
  (Ok (), mk_slide_info (info_number i) n (info_has_title i) (info_error i)).
Definition set_info_has_title (b : bool) : ST slide_info () := λ i,
  (Ok (), mk_slide_info (info_number i) (info_shapes i) b (info_error i)).
Definition set_info_error (m : string) : ST slide_info () := λ i,
  (Ok (), mk_slide_info (info_number i) (info_shapes i) (info_has_title i)
            (Some m)).

Definition set_valid (b : bool) : ST report () := λ r,
  (Ok (), mk_report b (error r) (n_slides r) (slide_details r) (n_layouts r)
            (n_masters r)).
Definition set_error (m : string) : ST report () := λ r,
  (Ok (), mk_report (valid r) (Some m) (n_slides r) (slide_details r)
            (n_layouts r) (n_masters r)).
Definition set_slides (n : nat) : ST report () := λ r,
  (Ok (), mk_report (valid r) (error r) n (slide_details r) (n_layouts r)
            (n_masters r)).
Definition set_layouts (n : nat) : ST report () := λ r,
  (Ok (), mk_report (valid r) (error r) (n_slides r) (slide_details r) n
            (n_masters r)).
Definition set_masters (n : nat) : ST report () := λ r,
  (Ok (), mk_report (valid r) (error r) (n_slides r) (slide_details r)
            (n_layouts r) n).
Definition append_detail (i : slide_info) : ST report () := λ r,
  (Ok (), mk_report (valid r) (error r) (n_slides r) (slide_details r ++ [i])
            (n_layouts r) (n_masters r)).

(** The dictionary [slide_info] after the inner [try]. *)
Definition inspect_slide (idx : nat) (s : slide) : result slide_info :=
  let '(r, slide_info) :=
    st_try_except
      (sp ← lift (shapes s);
       set_info_shapes (length sp);;
       sp ← lift (shapes s);
       match title sp with
       | Some _ => set_info_has_title true
       | None => mret ()
       end)
      is_Exception
      (λ e, set_info_error (exn_msg e))
      (mk_slide_info idx 0 false None) in
  r;; Ok slide_info.

(** The body of the outer [try], on the result of opening the file. *)
Definition verify_body (opened : result deck) : ST report () :=
  prs ← lift opened;
  n ← lift (len_slides prs);
  set_slides n;;
  layouts ← lift (slide_layouts prs);
  set_layouts (length layouts);;
  set_masters (length (slide_masters prs));;
  ss ← lift (slides prs);
  st_for (λ '(idx, s),
            slide_info ← lift (inspect_slide idx s);
            append_detail slide_info)
    (zip (seq 1 (length ss)) ss);;
  set_valid true.

Definition verify_presentation (input_file : Path) (σ : fs) : result report :=
  let result := mk_report false None 0 [] 0 0 in
  if negb (bool_decide (is_Some (σ !! input_file))) then
    Ok (snd (set_error ("File not found: " +:+ str_path input_file) result))
  else
    let '(r, result) :=
      st_try_except
        (verify_body (fst (Presentation input_file σ)))
        is_Exception
        (λ e, set_error (exn_msg e))
        result in
    r;; Ok result.

End Core.
Export Core.

(** ** The [extract] command of [cli.py] *)

Module Cli.

(** What the command sees: the files, and the lines written with
    [click.echo]; a line is marked when it goes to standard error. *)
Abbreviation world := (fs * list (bool * string))%type.

(** [click.echo(msg, err=err)] *)
Definition echo (err : bool) (msg : string) : ST world () := λ w,
  (Ok (), (w.1, w.2 ++ [(err, msg)])).

(** [sys.exit(code)] *)
Definition sys_exit {A} (code : Z) : ST world A :=
  st_raise SystemExit (str_int code).

(** A call into [core.py]. *)
Definition call {A} (m : ST fs A) : ST world A := λ w,
  let '(r, σ) := m w.1 in (r, (σ, w.2)).

(** [path.absolute()] in the working directory [cwd]. *)
Definition absolute (cwd p : Path) : Path :=
  match p with
  | "/" :: _ => p
  | _ => cwd ++ p
  end.

(** The body of the command [extract]; [click] has checked before that
    [input_file] exists. *)
Definition extract (cwd input_file output : Path) (slide_range : string)
    : ST world () :=
  st_try_except2
    ((if negb (contains_char "-" slide_range) then
        echo true "Error: Range must be in format 'start-end' or 'start-'";;
        sys_exit 1
      else mret ());;
     let parts := split_once "-" slide_range in
     p0 ← lift (getitem parts 0);
     start ← lift (int p0);
     p1 ← lift (getitem parts 1);
     end_ ← (if String.eqb p1 "" then mret None
             else e ← lift (int p1); mret (Some e));
     echo false
       ("Extracting slides " +:+ str_int start +:+ " to "
          +:+ match end_ with
              | Some e => if e =? 0 then "end" else str_int e
              | None => "end"
              end
          +:+ " from " +:+ str_path input_file +:+ "...");;
     output_file ← call (extract_slides input_file output start end_);
     echo false
       ("✓ Successfully extracted to "
          +:+ str_path (absolute cwd output_file)))
    (λ c, bool_decide (c = ValueError))
    (λ e,
       echo true ("Error: Invalid range format - " +:+ exn_msg e);;
       sys_exit 1)
    is_Exception
    (λ e, echo true ("Error: " +:+ exn_msg e);; sys_exit 1).

(** The exit status of the process. *)
Definition exit_status (r : result ()) : string :=
  match r with
  | Ok _ => "0"
  | Raise e => if is_Exception (exn_cls e) then "1" else exn_msg e
  end.

End Cli.
Export Cli.

(** ** The commands [split], [merge] and [verify] of [cli.py] *)

Module Commands.

(** [xs[-1]] *)
Definition getitem_last {A} (xs : list A) : result A :=
  match last xs with
  | Some x => Ok x
  | None => raise IndexError "list index out of range"
  end.

(** The body of the command [split]; [click] has checked before that
    [input_file] exists. *)
Definition split (cwd input_file output_dir : Path) (chunk_size : option Z)
    : ST world () :=
  st_try_except
    (match chunk_size with
     | Some c =>
         echo false
           ("Splitting " +:+ str_path input_file +:+ " into chunks of "
              +:+ str_int c +:+ " slides...")
     | None => echo false ("Splitting " +:+ str_path input_file +:+ "...")
     end;;
     created_files ←
       call (split_presentation input_file output_dir chunk_size);
     echo false
       ("✓ Successfully split into "
          +:+ str_int (Z.of_nat (length created_files)) +:+ " files");;
     echo false
       ("  Output directory: " +:+ str_path (absolute cwd output_dir));;
     if (length created_files <=? 10)%nat then
       st_for (λ file, echo false ("    - " +:+ name file)) created_files
     else
       first ← lift (getitem created_files 0);
       echo false ("    - " +:+ name first);;
       echo false "    - ...";;
       final ← lift (getitem_last created_files);
       echo false ("    - " +:+ name final))
    is_Exception
    (λ e, echo true ("Error: " +:+ exn_msg e);; sys_exit 1).

(** The body of the command [merge]; [click] has checked before that
    there is an input file and that every input file exists. *)
Definition merge (cwd : Path) (input_files : list Path) (output : Path)
    : ST world () :=
  st_try_except
    (let input_list := input_files in
     echo false
       ("Merging " +:+ str_int (Z.of_nat (length input_list)) +:+ " files...");;
     st_for (λ file, echo false ("  - " +:+ name file)) input_list;;
     output_file ← call (merge_presentations input_list output);
     echo false
       ("✓ Successfully merged into "
          +:+ str_path (absolute cwd output_file)))
    is_Exception
    (λ e, echo true ("Error: " +:+ exn_msg e);; sys_exit 1).

(** ["\n"] *)
Definition newline : string := String "010"%char "".

(** The truth value of [slide["error"]]: [None] and the empty text are
    false. *)
Definition error_truthy (e : option string) : bool :=
  match e with
  | Some m => negb (String.eqb m "")
  | None => false
  end.

(** [f"{error}"] *)
Definition error_text (e : option string) : string :=
  match e with Some m => m | None => "None" end.

(** The line of one slide in the verbose listing: the pieces echoed with
    [nl=False] and the empty [click.echo()] that ends the line. *)
Definition slide_line (s : slide_info) : string :=
  let status := if negb (error_truthy (info_error s)) then "✓" else "✗" in
  "    " +:+ status +:+ " Slide " +:+ str_int (Z.of_nat (info_number s))
    +:+ ": " +:+ str_int (Z.of_nat (info_shapes s)) +:+ " shapes"
    +:+ (if info_has_title s then " (has title)" else "")
    +:+ (if error_truthy (info_error s)
         then " - ERROR: " +:+ error_text (info_error s) else "").

(** The body of the command [verify]; [click] has checked before that
    [input_file] exists. *)
Definition verify (input_file : Path) (verbose : bool) : ST world () :=
  st_try_except
    (echo false ("Verifying " +:+ str_path input_file +:+ "...");;
     result ← (λ w, (verify_presentation input_file w.1, w));
     if valid result then
       echo false "✓ File is valid";;
       echo false
         ("  Total slides: " +:+ str_int (Z.of_nat (n_slides result)));;
       echo false
         ("  Slide layouts: " +:+ str_int (Z.of_nat (n_layouts result)));;
       echo false
         ("  Slide masters: " +:+ str_int (Z.of_nat (n_masters result)));;
       (if verbose then
          echo false (newline +:+ "  Slide details:");;
          st_for (λ s, echo false (slide_line s)) (slide_details result)
        else mret ());;
       let error_slides :=
         List.filter (λ s, error_truthy (info_error s))
           (slide_details result) in
       match error_slides with
       | [] => mret ()
       | _ =>
           echo false
             (newline +:+ "  Warning: "
                +:+ str_int (Z.of_nat (length error_slides))
                +:+ " slide(s) have errors");;
           st_for (λ s,
                     echo false
                       ("    - Slide " +:+ str_int (Z.of_nat (info_number s))
                          +:+ ": " +:+ error_text (info_error s)))
             error_slides
       end
     else
       echo true "✗ File is invalid";;
       echo true ("  Error: " +:+ error_text (error result));;
       sys_exit 1)
    is_Exception
    (λ e, echo true ("Error: " +:+ exn_msg e);; sys_exit 1).

End Commands.


(** ** What the operations are expected to compute *)

Module Spec.

(** The elements of [l] at the positions in [keep], in the order of [l]. *)
Definition kept {A} (keep : gset Z) (l : list A) : list A :=
  omap (λ i, l !! i)
    (filter (λ i : nat, Z.of_nat i ∈ keep) (seq 0 (length l))).

(** The relationships after slides were removed: those of entries that
    were in the slide list [before] and are no longer in [after] are gone,
    the others are as they were. *)
Definition rels_dropped (before after : list string)
    (rels0 rs : gmap string slide) : Prop :=
  ∀ r, rs !! r = if decide (r ∈ before ∧ r ∉ after) then None
                 else rels0 !! r.

(** The slides of the deck stored at a path. *)
Definition slides_at (σ : fs) (p : Path) : option (list slide) :=
  match σ !! p with
  | Some (PptxFile prs) =>
      match slides prs with Ok ss => Some ss | Raise _ => None end
  | _ => None
  end.

(** The file that a split with chunk size [C] of [T] slides writes for
    the [k]-th chunk. *)
Definition split_file (input_file output_dir : Path) (C T : Z) (k : nat)
    : Path :=
  joinpath output_dir
    (split_file_name (stem input_file) C (Z.of_nat k * C)
       (Z.min (Z.of_nat k * C + C) T)).

(** The [k]-th chunk of [c] elements. *)
Definition chunk {A} (c k : nat) (l : list A) : list A :=
  take c (drop (k * c) l).

(** The quotient of [a] by [b], rounded up. *)
Definition ceil_div (a b : Z) : Z :=
  if a `mod` b =? 0 then a `div` b else a `div` b + 1.

(** The background of a slide made by the merge from a slide with
    background [src]: solid, with the colour of [src] when that can be
    read as an RGB value, and without colour otherwise. *)
Definition merged_background (src : fill) : fill :=
  match (c ← fore_color src; rgb c) with
  | Ok hex => SolidFill (RGB hex)
  | Raise _ => SolidFill NoColor
  end.

(** The slide the merge makes on layout [lay] from the slide [src] with
    shapes [sp]. *)
Definition recreated (lay : layout) (src : slide) : slide :=
  mk_slide (layout_name lay)
    (Some (layout_placeholders lay ++ default [] (spTree src)))
    (merged_background (background src)).

(** The layout for the slides that a merge adds: the seventh layout,
    or the first when there are fewer than seven. *)
Definition blank_of (layouts : list layout) : option layout :=
  match layouts !! 6%nat with
  | Some lay => Some lay
  | None => layouts !! 0%nat
  end.

(** The shape trees can all be read. *)
Definition readable (ss : list slide) : Prop :=
  Forall (λ s, is_Some (spTree s)) ss.

(** The record that the verification keeps for the slide with number
    [idx]: the shape count and the title flag when the shape tree can be
    read, and the message of the exception otherwise. *)
Definition inspected (idx : nat) (s : slide) : slide_info :=
  match shapes s with
  | Ok sp =>
      mk_slide_info idx (length sp) (bool_decide (is_Some (title sp))) None
  | Raise e => mk_slide_info idx 0 false (Some (exn_msg e))
  end.

(** The report of a verification that stopped with the message [msg]
    after it had read [n] as the slide count. *)
Definition fatal_report (msg : string) (n : nat) : report :=
  mk_report false (Some msg) n [] 0 0.

(** What a merge needs from a later source: the file opens, its slides
    can be listed, and their shape trees can be read. *)
Definition source_of (σ : fs) (file : Path) (srcs : list slide) : Prop :=
  ∃ prs, σ !! file = Some (PptxFile prs) ∧ slides prs = Ok srcs
         ∧ readable srcs.

(** Reading the colour of a background as an RGB value. *)
Definition background_rgb (s : slide) : result string :=
  c ← fore_color (background s); rgb c.

(** The first of the files that does not exist. *)
Definition first_missing (σ : fs) (files : list Path) : option Path :=
  List.find (λ f, negb (bool_decide (is_Some (σ !! f)))) files.

(** The deck that a merge of [files] builds from the file system [σ],
    before it is saved. *)
Definition merged_deck (σ : fs) (files : list Path) : result deck :=
  match files with
  | [] => raise ValueError "No input files provided"
  | first :: remaining =>
      match first_missing σ files with
      | Some f =>
          raise FileNotFoundError ("Input file not found: " +:+ str_path f)
      | None =>
          match σ !! first with
          | Some (PptxFile base) => (st_fold merge_file remaining base σ).1
          | _ => raise PackageNotFoundError "Package not found"
          end
      end
  end.

End Spec.
Export Spec.

(** ** Sample decks *)

Module Samples.

Definition text_box (x : string) : shape := mk_shape None x.
Definition title_ph : shape := mk_shape (Some 0%nat) "<p:sp>title</p:sp>".

Definition red : fill := SolidFill (RGB "FF0000").

Definition slide_a : slide := mk_slide "Title Slide" (Some [title_ph]) red.
Definition slide_b : slide :=
  mk_slide "Blank" (Some [text_box "b1"; text_box "b2"]) Inherited.
Definition slide_c : slide :=
  mk_slide "Blank" (Some [text_box "c1"]) GradientFill.

Definition title_layout : layout := mk_layout "Title Slide" [title_ph].
Definition blank_layout : layout := mk_layout "Blank" [].

(** A master whose only layout has a title placeholder. *)
Definition small_master : master := mk_master [title_layout].

(** A master with seven layouts, the seventh without placeholders. *)
Definition office_master : master :=
  mk_master (replicate 6 title_layout ++ [blank_layout]).

Definition deck3 (m : master) : deck :=
  mk_deck ["rId1"; "rId2"; "rId3"]
    (list_to_map [("rId1", slide_a); ("rId2", slide_b); ("rId3", slide_c)])
    [m].

Definition deck2 : deck :=
  mk_deck ["rId1"; "rId2"]
    (list_to_map [("rId1", slide_b); ("rId2", slide_c)])
    [small_master].

Definition empty_deck : deck := mk_deck [] ∅ [office_master].

(** A deck whose presentation part lists no slide master. *)
Definition masterless_deck : deck :=
  mk_deck ["rId1"; "rId2"]
    (list_to_map [("rId1", slide_a); ("rId2", slide_b)]) [].

Definition deck_path : Path := ["in"; "deck.pptx"].
Definition out_dir : Path := ["out"].

Definition disk (prs : deck) : fs := {[ deck_path := PptxFile prs ]}.

Definition first_path : Path := ["a.pptx"].
Definition second_path : Path := ["b.pptx"].
Definition merged_path : Path := ["out"; "merged.pptx"].

Definition two_files : fs :=
  {[ first_path := PptxFile (deck3 office_master);
     second_path := PptxFile deck2 ]}.

End Samples.
Export Samples.

(** ** Facts about the Python and library models *)

Section result_facts.
Context {A B : Type}.

Lemma for_fold_app (body : A → B → result A) xs ys acc :
  for_fold body (xs ++ ys) acc
  = acc' ← for_fold body xs acc; for_fold body ys acc'.
Proof.
  revert acc. induction xs as [|x xs IH]; intros acc; simpl; [done|].
  destruct (body acc x); simpl; [apply IH|done].
Qed.

Lemma elem_of_concat (x : A) (ls : list (list A)) :
  x ∈ concat ls ↔ ∃ l, x ∈ l ∧ l ∈ ls.
Proof.
  induction ls as [|l ls IH]; simpl.
  - split; [by intros ?%elem_of_nil|]. by intros (l & _ & ?%elem_of_nil).
  - rewrite elem_of_app, IH. split.
    + intros [Hx|(l' & Hx & Hl')]; [exists l|exists l'];
        (split; [done|]); [left|by right].
    + intros (l' & Hx & [->|Hl']%elem_of_cons); [by left|right; eauto].
Qed.
End result_facts.

Section kept_facts.
Context {A : Type}.
Implicit Types (l : list A) (keep : gset Z).

Lemma kept_nil keep : kept keep (@nil A) = [].
Proof. done. Qed.

Lemma kept_snoc keep l x :
  kept keep (l ++ [x])
  = kept keep l ++ (if decide (Z.of_nat (length l) ∈ keep) then [x] else []).
Proof.
  unfold kept. rewrite length_app, Nat.add_1_r, seq_S. simpl.
  rewrite filter_app, omap_app. f_equal.
  - apply list_omap_ext, Forall2_same_length_lookup. split; [done|].
    intros i j k Hj Hk. rewrite Hj in Hk. injection Hk as <-.
    apply list_elem_of_lookup_2, list_elem_of_filter in Hj as [_ Hj].
    apply elem_of_seq in Hj. rewrite lookup_app_l by lia. done.
  - rewrite filter_cons, filter_nil. case_decide; simpl; [|done].
    by rewrite list_lookup_middle.
Qed.

Lemma kept_length_le keep l : (length (kept keep l) ≤ length l)%nat.
Proof.
  induction l as [|x l IH] using rev_ind; [done|].
  rewrite kept_snoc, !length_app. case_decide; simpl; lia.
Qed.

(** When the positions to keep are positions of the list, as many
    elements are kept as there are positions. *)
Lemma kept_length_in_range keep l :
  (∀ i, i ∈ keep → 0 ≤ i < Z.of_nat (length l)) →
  length (kept keep l) = size keep.
Proof.
  intros Hrange. unfold kept.
  set (ks := filter (λ i : nat, Z.of_nat i ∈ keep) (seq 0 (length l))).
  assert (length (omap (λ i, l !! i) ks) = length ks) as ->.
  { assert (Forall (λ i, i < length l)%nat ks) as Hall.
    { apply Forall_forall. intros i [_ Hi%elem_of_seq]%list_elem_of_filter.
      lia. }
    induction Hall as [|i ks' Hi _ IH]; [done|]. csimpl.
    destruct (lookup_lt_is_Some_2 l i Hi) as [x ->]. simpl. by rewrite IH. }
  assert (keep = list_to_set (Z.of_nat <$> ks)) as Heq.
  { apply set_eq. intros x.
    rewrite elem_of_list_to_set, list_elem_of_fmap. split.
    - intros Hx. exists (Z.to_nat x). pose proof (Hrange x Hx).
      split; [lia|]. apply list_elem_of_filter. split.
      + by rewrite Z2Nat.id by lia.
      + apply elem_of_seq. lia.
    - intros (i & -> & [Hi _]%list_elem_of_filter). done. }
  rewrite (f_equal size Heq), size_list_to_set, length_fmap; [done|].
  apply NoDup_fmap; [apply _|]. apply NoDup_filter, NoDup_seq.
Qed.

(** Keeping the positions of a range is cutting the list. *)
Lemma kept_range (lo hi : nat) l :
  (lo ≤ hi)%nat →
  kept (list_to_set (range (Z.of_nat lo) (Z.of_nat hi))) l
  = take (hi - lo) (drop lo l).
Proof.
  intros Hle. induction l as [|x l IH] using rev_ind.
  { by rewrite drop_nil, take_nil. }
  rewrite kept_snoc, IH. set (n := length l).
  assert (Z.of_nat n ∈ (list_to_set (range (Z.of_nat lo) (Z.of_nat hi))
                          : gset Z) ↔ (lo ≤ n < hi)%nat) as Hin.
  { rewrite elem_of_list_to_set. unfold range.
    rewrite list_elem_of_fmap. split.
    - intros (k & Hk & Hs). apply elem_of_seq in Hs. lia.
    - intros ?. exists (n - lo)%nat. split; [lia|].
      apply elem_of_seq. lia. }
  case_decide as Hn.
  - apply Hin in Hn. rewrite drop_app_le by (fold n; lia).
    rewrite take_app_ge by (rewrite length_drop; fold n; lia).
    rewrite (take_ge (drop lo l)) by (rewrite length_drop; fold n; lia).
    f_equal. rewrite length_drop. fold n.
    by rewrite take_ge by (simpl; lia).
  - rewrite app_nil_r. rewrite Hin in Hn.
    destruct (decide (n < lo)%nat).
    + rewrite (drop_ge l) by (fold n; lia).
      rewrite (drop_ge (l ++ [x])) by (rewrite length_app; simpl; fold n; lia).
      done.
    + rewrite drop_app_le by (fold n; lia).
      rewrite take_app_le by (rewrite length_drop; fold n; lia). done.
Qed.
End kept_facts.

Section slides_facts.
Implicit Types (prs : deck) (ss : list slide) (l : list string).

Lemma related_slide_Some prs r s :
  rels prs !! r = Some s → related_slide prs r = Ok s.
Proof. unfold related_slide. by intros ->. Qed.

Lemma related_slide_None prs r :
  rels prs !! r = None →
  ∃ e, related_slide prs r = Raise e ∧ exn_cls e = KeyError.
Proof. unfold related_slide. intros ->. by eexists. Qed.

Lemma slides_loop_spec prs l acc ss :
  for_fold (λ acc rId, s ← related_slide prs rId; Ok (acc ++ [s])) l acc
    = Ok ss
  ↔ ∃ ss', ss = acc ++ ss'
           ∧ Forall2 (λ r s, rels prs !! r = Some s) l ss'.
Proof.
  revert acc. induction l as [|r l IH]; intros acc; simpl.
  - split.
    + intros [= <-]. exists []. by rewrite app_nil_r.
    + intros (ss' & -> & Hf). inversion Hf. by rewrite app_nil_r.
  - destruct (rels prs !! r) as [s|] eqn:Hr.
    + rewrite (related_slide_Some _ _ _ Hr). simpl. rewrite IH. split.
      * intros (ss' & -> & Hf). exists (s :: ss').
        rewrite <- app_assoc. split; [done|]. by constructor.
      * intros (ss' & -> & Hf). inversion Hf as [|? s' ? ss'' Hs]; subst.
        rewrite Hr in Hs. injection Hs as <-.
        exists ss''. by rewrite <- app_assoc.
    + destruct (related_slide_None _ _ Hr) as [e [-> _]]. simpl.
      split; [done|]. intros (ss' & _ & Hf).
      inversion Hf as [|? ? ? ? Hs]; subst. by rewrite Hr in Hs.
Qed.

Lemma slides_loop_raise prs l acc e :
  for_fold (λ acc rId, s ← related_slide prs rId; Ok (acc ++ [s])) l acc
    = Raise e
  → exn_cls e = KeyError.
Proof.
  revert acc. induction l as [|r l IH]; intros acc; simpl; [done|].
  destruct (rels prs !! r) as [s|] eqn:Hr.
  - rewrite (related_slide_Some _ _ _ Hr). simpl. apply IH.
  - destruct (related_slide_None _ _ Hr) as [e' [-> He']]. simpl.
    by intros [= <-].
Qed.

Lemma slides_raise prs e : slides prs = Raise e → exn_cls e = KeyError.
Proof. apply slides_loop_raise. Qed.

Lemma slide_layouts_raise prs e :
  slide_layouts prs = Raise e → exn_cls e = IndexError.
Proof.
  unfold slide_layouts. destruct (slide_masters prs); [|done].
  by intros [= <-].
Qed.

(** The slides are listed exactly when every entry has a relationship. *)
Lemma slides_spec prs ss :
  slides prs = Ok ss
  ↔ Forall2 (λ r s, rels prs !! r = Some s) (sldIdLst prs) ss.
Proof.
  unfold slides. rewrite slides_loop_spec. naive_solver.
Qed.

Lemma slides_length prs ss :
  slides prs = Ok ss → length ss = length (sldIdLst prs).
Proof. rewrite slides_spec. intros Hf. by apply Forall2_length in Hf. Qed.

Lemma len_slides_spec prs ss :
  slides prs = Ok ss → len_slides prs = Ok (length (sldIdLst prs)).
Proof.
  intros Hs. unfold len_slides. rewrite Hs. simpl.
  by rewrite (slides_length _ _ Hs).
Qed.

Lemma slides_resolve prs ss :
  slides prs = Ok ss → ∀ r, r ∈ sldIdLst prs → is_Some (rels prs !! r).
Proof.
  rewrite slides_spec. intros Hf r Hr.
  apply list_elem_of_lookup in Hr as [i Hi].
  destruct (Forall2_lookup_l _ _ _ _ _ Hf Hi) as (s & _ & Hs). eauto.
Qed.

Lemma Forall2_kept {A B} (R : A → B → Prop) keep (l : list A) (k : list B) :
  Forall2 R l k → Forall2 R (kept keep l) (kept keep k).
Proof.
  revert k. induction l as [|x l IH] using rev_ind; intros k Hf.
  { inversion Hf. constructor. }
  apply Forall2_app_inv_l in Hf as (k1 & k2 & H1 & H2 & ->).
  inversion H2 as [|? y ? ? Hxy Hnil]; subst. inversion Hnil; subst.
  rewrite !kept_snoc, <- (Forall2_length _ _ _ H1).
  apply Forall2_app; [by apply IH|].
  case_decide; repeat constructor. done.
Qed.
End slides_facts.

(** ** The slide-retention steps *)

Section retention.
Implicit Types (l cur : list string) (rs : gmap string slide).

Lemma count_delete_lt cur idx (rId : string) :
  cur !! idx = Some rId →
  (length (filter (λ r, r = rId) cur) < 2)%nat →
  rId ∉ delete idx cur.
Proof.
  intros Hidx Hcount. rewrite delete_take_drop.
  rewrite <- (take_drop_middle _ _ _ Hidx) in Hcount.
  rewrite filter_app, filter_cons, length_app in Hcount.
  rewrite decide_True in Hcount by done. simpl in Hcount.
  intros [Hin|Hin]%elem_of_app.
  - assert (rId ∈ filter (λ r, r = rId) (take idx cur)) as Hf
      by (by apply list_elem_of_filter).
    destruct (filter _ (take idx cur)); [by inversion Hf|simpl in *; lia].
  - assert (rId ∈ filter (λ r, r = rId) (drop (S idx) cur)) as Hf
      by (by apply list_elem_of_filter).
    destruct (filter _ (drop (S idx) cur));
      [by inversion Hf|simpl in *; lia].
Qed.

Lemma count_delete_ge cur idx (rId : string) :
  cur !! idx = Some rId →
  ¬ (length (filter (λ r, r = rId) cur) < 2)%nat →
  rId ∈ delete idx cur.
Proof.
  intros Hidx Hcount. rewrite delete_take_drop.
  rewrite <- (take_drop_middle _ _ _ Hidx) in Hcount.
  rewrite filter_app, filter_cons, length_app in Hcount.
  rewrite decide_True in Hcount by done. simpl in Hcount.
  apply elem_of_app.
  destruct (filter _ (take idx cur)) as [|a ?] eqn:E1.
  - destruct (filter _ (drop (S idx) cur)) as [|b ?] eqn:E2;
      [simpl in *; lia|].
    right. assert (b ∈ filter (λ r, r = rId) (drop (S idx) cur)) as Hb
      by (rewrite E2; left).
    by apply list_elem_of_filter in Hb as [-> ?].
  - left. assert (a ∈ filter (λ r, r = rId) (take idx cur)) as Ha
      by (rewrite E1; left).
    by apply list_elem_of_filter in Ha as [-> ?].
Qed.

Lemma elem_of_delete_other cur idx (rId r : string) :
  cur !! idx = Some rId → r ≠ rId → r ∈ delete idx cur ↔ r ∈ cur.
Proof.
  intros Hidx Hne. rewrite delete_take_drop.
  rewrite <- (take_drop_middle _ _ _ Hidx) at 3.
  rewrite !elem_of_app, elem_of_cons. naive_solver.
Qed.

Lemma elem_of_delete_subset cur idx (r : string) :
  r ∈ delete idx cur → r ∈ cur.
Proof.
  rewrite delete_take_drop. intros [H|H]%elem_of_app.
  - by apply (subseteq_take idx cur).
  - by apply (subseteq_drop (S idx) cur).
Qed.

(** One removal keeps the relationships of the remaining entries. *)
Lemma remove_slide_step l0 rels0 cur rs ms idx rId :
  cur !! idx = Some rId →
  (∀ r, r ∈ cur → r ∈ l0) →
  (∀ r, r ∈ l0 → is_Some (rels0 !! r)) →
  rels_dropped l0 cur rels0 rs →
  ∃ rs', remove_slide (mk_deck cur rs ms) idx
           = Ok (mk_deck (delete idx cur) rs' ms)
         ∧ rels_dropped l0 (delete idx cur) rels0 rs'.
Proof.
  intros Hidx Hsub Hres Hinv.
  assert (rId ∈ cur) as Hin by (by eapply list_elem_of_lookup_2).
  assert (idx < length cur)%nat as Hlt by (by eapply lookup_lt_Some).
  unfold remove_slide, getitem. simpl. rewrite Hidx. simpl.
  unfold drop_rel, rel_ref_count. simpl.
  destruct (decide (length (filter (λ r, r = rId) cur) < 2)%nat)
    as [Hc|Hc].
  - assert (is_Some (rs !! rId)) as [s Hs].
    { rewrite Hinv. rewrite decide_False by tauto. auto. }
    rewrite Hs. simpl. unfold del_sldId. simpl.
    rewrite decide_True by done.
    eexists. split; [done|]. intros r.
    destruct (decide (r = rId)) as [->|Hne].
    + rewrite lookup_delete_eq. rewrite decide_True; [done|].
      split; [auto|]. by apply count_delete_lt.
    + rewrite lookup_delete_ne by done. rewrite Hinv.
      pose proof (elem_of_delete_other _ _ _ _ Hidx Hne) as Hiff.
      repeat case_decide; try done; exfalso; tauto.
  - simpl. unfold del_sldId. simpl. rewrite decide_True by done.
    eexists. split; [done|]. intros r. rewrite Hinv.
    destruct (decide (r = rId)) as [->|Hne].
    + pose proof (count_delete_ge _ _ _ Hidx Hc).
      rewrite !decide_False by tauto. done.
    + pose proof (elem_of_delete_other _ _ _ _ Hidx Hne) as Hiff.
      repeat case_decide; try done; exfalso; tauto.
Qed.

(** The removal loop, from the last position of [l1] down: of
    [l1 ++ l2] the kept part of [l1] and all of [l2] remain. *)
Lemma remove_loop keep l0 rels0 ms l1 :
  ∀ l2 rs,
  (∀ r, r ∈ l1 ++ l2 → r ∈ l0) →
  (∀ r, r ∈ l0 → is_Some (rels0 !! r)) →
  rels_dropped l0 (l1 ++ l2) rels0 rs →
  ∃ rs',
    for_fold remove_slide
      (reverse (filter (λ i : nat, Z.of_nat i ∉ keep)
                  (range_len (length l1))))
      (mk_deck (l1 ++ l2) rs ms)
    = Ok (mk_deck (kept keep l1 ++ l2) rs' ms)
    ∧ rels_dropped l0 (kept keep l1 ++ l2) rels0 rs'.
Proof.
  unfold range_len.
  induction l1 as [|x l IH] using rev_ind; intros l2 rs Hsub Hres Hinv.
  { simpl. eauto. }
  rewrite length_app, Nat.add_1_r, seq_S, filter_app, reverse_app. simpl.
  rewrite filter_cons, filter_nil, kept_snoc.
  destruct (decide (Z.of_nat (length l) ∈ keep)) as [Hk|Hk].
  - rewrite decide_False by tauto. simpl.
    rewrite <- !app_assoc. simpl. rewrite <- app_assoc in Hsub, Hinv.
    by apply IH.
  - rewrite decide_True by done. rewrite reverse_singleton. simpl.
    assert (((l ++ [x]) ++ l2) !! length l = Some x) as Hidx.
    { rewrite <- app_assoc. simpl. by rewrite list_lookup_middle. }
    destruct (remove_slide_step l0 rels0 _ rs ms _ _ Hidx Hsub Hres Hinv)
      as (rs1 & -> & Hinv1). simpl.
    assert (delete (length l) ((l ++ [x]) ++ l2) = l ++ l2) as Hdel.
    { rewrite <- app_assoc. simpl. rewrite delete_take_drop.
      rewrite take_app_length.
      rewrite (drop_app_ge l) by lia.
      replace (S (length l) - length l)%nat with 1%nat by lia. done. }
    rewrite Hdel in *. rewrite app_nil_r.
    apply IH; [|done|done].
    intros r Hr. apply Hsub. rewrite <- Hdel in Hr.
    by eapply elem_of_delete_subset.
Qed.
End retention.

Lemma retain_slides_spec (prs : deck) (keep : gset Z) (ss : list slide) :
  slides prs = Ok ss →
  ∃ prs',
    retain_slides keep prs = Ok prs'
    ∧ sldIdLst prs' = kept keep (sldIdLst prs)
    ∧ slides prs' = Ok (kept keep ss)
    ∧ rels_dropped (sldIdLst prs) (sldIdLst prs') (rels prs) (rels prs')
    ∧ slide_masters prs' = slide_masters prs.
Proof.
  intros Hss. unfold retain_slides.
  rewrite (len_slides_spec _ _ Hss). simpl.
  pose proof (slides_resolve _ _ Hss) as Hres.
  apply slides_spec in Hss.
  destruct prs as [l rs ms]. simpl in *.
  destruct (remove_loop keep l rs ms l [] rs) as (rs' & Hloop & Hinv).
  - intros r. by rewrite app_nil_r.
  - intros r. apply Hres.
  - intros r. rewrite decide_False; [done|]. rewrite app_nil_r. tauto.
  - rewrite !app_nil_r in *. rewrite Hloop. eexists. split; [done|].
    simpl. repeat split; try done.
    apply slides_spec. simpl.
    pose proof (Forall2_kept _ keep _ _ Hss) as Hk.
    apply Forall2_same_length_lookup. split; [by eapply Forall2_length|].
    intros i r s Hr Hs.
    rewrite Hinv. rewrite decide_False.
    + by apply (Forall2_lookup_lr _ _ _ i r s Hk).
    + apply list_elem_of_lookup_2 in Hr. tauto.
Qed.

(** C1. For a loaded presentation whose slide entries all resolve to
    their slides and for every set of positions to keep, the removal of
    the other positions from the last one down succeeds and leaves, in
    the slide-id list and in the slides it gives, exactly the entries at
    the kept positions in their original order; the relationship of every
    entry that no longer occurs is dropped, the others and the masters
    are untouched. *)
Theorem retain_slides_keeps_exactly (prs : deck) (keep : gset Z)
    (ss : list slide) :
  slides prs = Ok ss →
  (∀ i, i ∈ keep → 0 ≤ i < Z.of_nat (length ss)) →
  ∃ prs',
    retain_slides keep prs = Ok prs'
    ∧ sldIdLst prs' = kept keep (sldIdLst prs)
    ∧ slides prs' = Ok (kept keep ss)
    ∧ length (kept keep ss) = size keep
    ∧ rels_dropped (sldIdLst prs) (sldIdLst prs') (rels prs) (rels prs')
    ∧ slide_masters prs' = slide_masters prs.
Proof.
  intros Hss Hrange.
  destruct (retain_slides_spec prs keep ss Hss)
    as (prs' & Hret & Hids & Hslides & Hrels & Hms).
  exists prs'. repeat split; try done.
  by apply kept_length_in_range.
Qed.

Lemma retain_slides_keeps_exactly_witness :
  ∃ prs',
    retain_slides {[0; 2]} (deck3 office_master) = Ok prs'
    ∧ sldIdLst prs' = kept {[0; 2]} ["rId1"; "rId2"; "rId3"]
    ∧ slides prs' = Ok (kept {[0; 2]} [slide_a; slide_b; slide_c])
    ∧ length (kept {[0; 2]} [slide_a; slide_b; slide_c])
      = size ({[0; 2]} : gset Z)
    ∧ rels_dropped ["rId1"; "rId2"; "rId3"] (sldIdLst prs')
        (rels (deck3 office_master)) (rels prs')
    ∧ slide_masters prs' = [office_master].
Proof.
  apply (retain_slides_keeps_exactly (deck3 office_master) {[0; 2]}
           [slide_a; slide_b; slide_c]).
  - vm_compute. reflexivity.
  - intros i [->%elem_of_singleton| ->%elem_of_singleton]%elem_of_union;
      simpl; lia.
Defined.

(** ** Numbers and names as text *)

Section text_facts.
Implicit Types (s t : string).

Lemma string_app_cons c s t : String c s +:+ t = String c (s +:+ t).
Proof. reflexivity. Qed.

Lemma string_app_nil t : "" +:+ t = t.
Proof. reflexivity. Qed.

Lemma string_app_nil_r s : s = s +:+ "".
Proof.
  induction s as [|c s IH]; [done|]. rewrite string_app_cons. by f_equal.
Qed.

Lemma string_app_assoc s t u : (s +:+ t) +:+ u = s +:+ (t +:+ u).
Proof.
  induction s as [|c s IH]; [done|]. rewrite !string_app_cons. by f_equal.
Qed.


Lemma pretty_N_char_digit d :
  (d < 10)%N →
  is_digit (pretty_N_char d) = true ∧ digit_val (pretty_N_char d) = d.
Proof.
  intros Hd.
  assert (d = 0 ∨ d = 1 ∨ d = 2 ∨ d = 3 ∨ d = 4 ∨ d = 5 ∨ d = 6 ∨ d = 7
          ∨ d = 8 ∨ d = 9)%N as Hcases by lia.
  repeat (destruct Hcases as [->|Hcases]; [by vm_compute|]).
  subst. by vm_compute.
Qed.

Lemma pretty_N_go_app x s t :
  pretty_N_go x s +:+ t = pretty_N_go x (s +:+ t).
Proof.
  revert s. induction (N.lt_wf_0 x) as [x _ IH]; intros s.
  destruct (decide (x = 0)%N) as [->|Hx].
  { by rewrite !pretty_N_go_0. }
  rewrite (pretty_N_go_step x s), (pretty_N_go_step x (s +:+ t)) by lia.
  rewrite IH by (apply N.div_lt; lia). done.
Qed.

Lemma leading_number_pretty_N_go x s :
  leading_number 0 (pretty_N_go x s) = leading_number x s.
Proof.
  revert s. induction (N.lt_wf_0 x) as [x _ IH]; intros s.
  destruct (decide (x = 0)%N) as [->|Hx].
  { by rewrite pretty_N_go_0. }
  rewrite pretty_N_go_step by lia.
  rewrite IH by (apply N.div_lt; lia). simpl.
  destruct (pretty_N_char_digit (x `mod` 10)%N) as [-> ->].
  { apply N.mod_lt. lia. }
  f_equal. pose proof (N.div_mod x 10). lia.
Qed.

(** The number read back from its decimal text, whatever follows. *)
Lemma leading_number_str_int n t :
  0 ≤ n → leading_number 0 (str_int n +:+ t) = leading_number (Z.to_N n) t.
Proof.
  intros Hn. unfold str_int, pretty, pretty_Z.
  destruct n as [|p|p]; [done| |lia].
  unfold pretty, pretty_positive, pretty, pretty_N.
  rewrite decide_False by lia.
  rewrite pretty_N_go_app. simpl.
  apply leading_number_pretty_N_go.
Qed.

Lemma leading_number_stop a c t :
  is_digit c = false → leading_number a (String c t) = a.
Proof. simpl. by intros ->. Qed.

Lemma leading_number_zeros k t :
  leading_number 0 (zeros k +:+ t) = leading_number 0 t.
Proof.
  induction k as [|k IH]; [done|]. simpl zeros. rewrite string_app_cons.
  apply IH.
Qed.

Lemma fmt_03d_nonneg n :
  0 ≤ n →
  fmt_03d n = zeros (3 - String.length (str_int n)) +:+ str_int n.
Proof.
  intros Hn. unfold fmt_03d.
  destruct (n <? 0) eqn:E; [apply Z.ltb_lt in E; lia|done].
Qed.

Lemma leading_number_fmt_03d n t :
  0 ≤ n → leading_number 0 (fmt_03d n +:+ t) = leading_number (Z.to_N n) t.
Proof.
  intros Hn. rewrite fmt_03d_nonneg by done.
  rewrite string_app_assoc, leading_number_zeros.
  by apply leading_number_str_int.
Qed.


Lemma rsplit_dot_spec s a b :
  rsplit_dot s = Some (a, b) → s = a +:+ b ∧ ∃ r, b = String "." r.
Proof.
  revert a b. induction s as [|c s IH]; intros a b; simpl; [done|].
  destruct (rsplit_dot s) as [[a' b']|].
  - intros [= <- <-]. destruct (IH a' b' eq_refl) as [-> Hb].
    by rewrite string_app_cons.
  - destruct (Ascii.eqb c ".") eqn:E; [|done].
    apply Ascii.eqb_eq in E as ->. intros [= <- <-]. eauto.
Qed.

(** A name is its stem, followed by nothing or by a suffix that starts
    with a dot. *)
Lemma stem_spec (p : Path) :
  ∃ suffix, name p = stem p +:+ suffix
            ∧ (suffix = "" ∨ ∃ r, suffix = String "." r).
Proof.
  unfold stem. destruct (rsplit_dot (name p)) as [[a b]|] eqn:E.
  - destruct (rsplit_dot_spec _ _ _ E) as [Hn Hb].
    case_match.
    + exists b. auto.
    + exists "". split; [|auto]. apply string_app_nil_r.
  - exists "". split; [|auto]. apply string_app_nil_r.
Qed.

Lemma name_joinpath (p : Path) s : name (joinpath p s) = s.
Proof. unfold name, joinpath. by rewrite last_snoc. Qed.
End text_facts.

(** ** State-monad steps *)

Section st_facts.
Context {S A B : Type}.

Lemma st_bind_ok (m : ST S A) (f : A → ST S B) s a s' :
  m s = (Ok a, s') → (m ≫= f) s = f a s'.
Proof. unfold mbind, ST_bind. by intros ->. Qed.

Lemma st_bind_raise (m : ST S A) (f : A → ST S B) s e s' :
  m s = (Raise e, s') → (m ≫= f) s = (Raise e, s').
Proof. unfold mbind, ST_bind. by intros ->. Qed.
End st_facts.

Lemma Presentation_ok (σ : fs) p prs :
  σ !! p = Some (PptxFile prs) → Presentation p σ = (Ok prs, σ).
Proof. unfold Presentation. by intros ->. Qed.

Lemma path_exists_ok (σ : fs) p x :
  σ !! p = Some x → path_exists p σ = (Ok true, σ).
Proof.
  unfold path_exists. intros ->. by rewrite bool_decide_eq_true_2 by eauto.
Qed.

(** ** Splitting *)

Section splitting.
Variables (input_file output_dir : Path) (c total : Z).

(** The file written for the chunk that starts at [x]. *)
Let out (x : Z) : Path :=
  joinpath output_dir
    (split_file_name (stem input_file) c x (Z.min (x + c) total)).

Lemma split_file_name_inj stm e1 e2 x y :
  0 ≤ x → 0 ≤ y →
  split_file_name stm c x e1 = split_file_name stm c y e2 → x = y.
Proof.
  intros Hx Hy. unfold split_file_name.
  destruct (c =? 1); intros H%String.app_inj%String.app_inj;
    apply (f_equal (leading_number 0)) in H;
    rewrite !leading_number_fmt_03d in H by lia;
    rewrite ?string_app_cons in H;
    rewrite !leading_number_stop in H by done; lia.
Qed.

Lemma out_inj x y : 0 ≤ x → 0 ≤ y → out x = out y → x = y.
Proof.
  intros Hx Hy H. apply (f_equal name) in H. unfold out in H.
  rewrite !name_joinpath in H. by eapply split_file_name_inj.
Qed.

Lemma out_not_input x : out x ≠ input_file.
Proof.
  intros H. apply (f_equal name) in H. unfold out in H.
  rewrite name_joinpath in H.
  destruct (stem_spec input_file) as (suffix & Hn & Hsuffix).
  rewrite Hn in H. unfold split_file_name in H.
  destruct (c =? 1); apply String.app_inj in H;
    destruct Hsuffix as [->|[r ->]]; discriminate.
Qed.

Lemma split_chunk_ok (σ : fs) prs d acc x :
  σ !! input_file = Some (PptxFile prs) →
  retain_slides (list_to_set (range x (Z.min (x + c) total))) prs = Ok d →
  split_chunk input_file output_dir (stem input_file) c total acc x σ
  = (Ok (acc ++ [out x]), <[out x := PptxFile d]> σ).
Proof.
  intros Hin Hret. unfold split_chunk.
  rewrite (st_bind_ok _ _ _ _ _ (Presentation_ok _ _ _ Hin)).
  unfold lift. rewrite Hret. reflexivity.
Qed.

(** The loop over the chunk starts [xs]: every chunk is written to its
    own file, the input file and all other files stay as they are. *)
Lemma split_loop prs (d : Z → deck) xs :
  ∀ (σ : fs) acc,
  σ !! input_file = Some (PptxFile prs) →
  (∀ x, x ∈ xs →
     retain_slides (list_to_set (range x (Z.min (x + c) total))) prs
     = Ok (d x)) →
  NoDup (out <$> xs) →
  ∃ σ',
    st_fold (split_chunk input_file output_dir (stem input_file) c total)
      xs acc σ = (Ok (acc ++ (out <$> xs)), σ')
    ∧ σ' !! input_file = Some (PptxFile prs)
    ∧ (∀ x, x ∈ xs → σ' !! out x = Some (PptxFile (d x)))
    ∧ (∀ p, p ∉ out <$> xs → σ' !! p = σ !! p).
Proof.
  induction xs as [|x xs IH]; intros σ acc Hin Hret Hnd.
  { exists σ. simpl. rewrite app_nil_r. repeat split; try done.
    intros x Hx. inversion Hx. }
  apply NoDup_cons in Hnd as [Hx Hnd]. simpl.
  assert (retain_slides (list_to_set (range x (Z.min (x + c) total))) prs
          = Ok (d x)) as Hd by (apply Hret; left).
  rewrite (st_bind_ok _ _ _ _ _ (split_chunk_ok σ prs (d x) acc x Hin Hd)).
  destruct (IH (<[out x := PptxFile (d x)]> σ) (acc ++ [out x]))
    as (σ' & Hrun & Hin' & Hfiles & Hframe); [| |done|].
  { rewrite lookup_insert_ne; [done|]. apply out_not_input. }
  { intros y Hy. apply Hret. by right. }
  exists σ'. rewrite Hrun, <- app_assoc. repeat split; try done.
  - intros y [->|Hy]%elem_of_cons; [|by apply Hfiles].
    rewrite Hframe by done. by rewrite lookup_insert_eq.
  - intros p Hp. apply not_elem_of_cons in Hp as [Hne Hp].
    rewrite Hframe by done. by rewrite lookup_insert_ne.
Qed.
End splitting.

Section chunk_facts.
Context {A : Type}.
Implicit Types (l : list A).

Lemma ceil_div_spec (T C : Z) :
  1 ≤ C → 0 ≤ T → (T + C - 1) `div` C = ceil_div T C.
Proof.
  intros HC HT. unfold ceil_div.
  pose proof (Z.div_mod T C ltac:(lia)) as Hdm.
  pose proof (Z.mod_pos_bound T C ltac:(lia)) as Hb.
  destruct (T `mod` C =? 0) eqn:E.
  - apply Z.eqb_eq in E. symmetry.
    apply (Z.div_unique _ _ _ (C - 1)); lia.
  - apply Z.eqb_neq in E. symmetry.
    apply (Z.div_unique _ _ _ (T `mod` C - 1)); lia.
Qed.

Lemma ceil_div_pos (T C : Z) : 1 ≤ C → 1 ≤ T → 1 ≤ ceil_div T C.
Proof.
  intros HC HT. unfold ceil_div.
  pose proof (Z.div_mod T C ltac:(lia)) as Hdm.
  pose proof (Z.mod_pos_bound T C ltac:(lia)) as Hb.
  pose proof (Z.div_pos T C ltac:(lia) ltac:(lia)).
  destruct (T `mod` C =? 0) eqn:E; [|lia].
  apply Z.eqb_eq in E. nia.
Qed.

(** Every chunk before the end starts inside the list. *)
Lemma chunk_start_lt (T C : Z) (k : nat) :
  1 ≤ C → 0 ≤ T → (k < Z.to_nat (ceil_div T C))%nat → Z.of_nat k * C < T.
Proof.
  intros HC HT Hk. unfold ceil_div in Hk.
  pose proof (Z.div_mod T C ltac:(lia)) as Hdm.
  pose proof (Z.mod_pos_bound T C ltac:(lia)) as Hb.
  pose proof (Z.div_pos T C ltac:(lia) ltac:(lia)).
  destruct (T `mod` C =? 0) eqn:E.
  - apply Z.eqb_eq in E. nia.
  - apply Z.eqb_neq in E. nia.
Qed.

Lemma kept_chunk l (C : Z) (k : nat) :
  1 ≤ C → Z.of_nat k * C ≤ Z.of_nat (length l) →
  kept (list_to_set
          (range (Z.of_nat k * C)
             (Z.min (Z.of_nat k * C + C) (Z.of_nat (length l))))) l
  = chunk (Z.to_nat C) k l.
Proof.
  intros HC Hk. unfold chunk.
  set (lo := (k * Z.to_nat C)%nat).
  set (hi := ((lo + Z.to_nat C) `min` length l)%nat).
  replace (Z.of_nat k * C) with (Z.of_nat lo) by lia.
  replace (Z.min (Z.of_nat lo + C) (Z.of_nat (length l)))
    with (Z.of_nat hi) by lia.
  rewrite kept_range by lia.
  destruct (decide (lo + Z.to_nat C ≤ length l)%nat).
  - f_equal. lia.
  - rewrite !(take_ge (drop lo l)) by (rewrite length_drop; lia). done.
Qed.

Lemma chunk_length l (C k : nat) :
  length (chunk C k l) = (C `min` (length l - k * C))%nat.
Proof. unfold chunk. by rewrite length_take, length_drop. Qed.

(** The chunks, one after the other, are the list cut at [n * C]. *)
Lemma concat_chunks l (C n : nat) :
  concat ((λ k, chunk C k l) <$> seq 0 n) = take (n * C) l.
Proof.
  induction n as [|n IH]; [done|].
  rewrite seq_S, fmap_app, concat_app, IH. simpl.
  rewrite app_nil_r. unfold chunk. rewrite take_take_drop.
  f_equal. lia.
Qed.
End chunk_facts.

Section split_spec.
Variables (σ : fs) (input_file output_dir : Path) (prs : deck)
          (ss : list slide) (chunk_size : option Z).
Hypothesis Hfile : σ !! input_file = Some (PptxFile prs).
Hypothesis Hslides : slides prs = Ok ss.

Let T := Z.of_nat (length ss).
Let C := default 1 chunk_size.
Hypothesis HT : 1 ≤ T.
Hypothesis HC : 1 ≤ C.

(** The number of chunks and the file of the [k]-th chunk. *)
Let n := Z.to_nat (ceil_div T C).
Let file : nat → Path := split_file input_file output_dir C T.

Lemma split_presentation_spec :
  ∃ σ',
    split_presentation input_file output_dir chunk_size σ
    = (Ok (file <$> seq 0 n), σ')
    ∧ σ' !! input_file = Some (PptxFile prs)
    ∧ (∀ k, (k < n)%nat →
         ∃ d, σ' !! file k = Some (PptxFile d)
              ∧ slides d = Ok (chunk (Z.to_nat C) k ss)
              ∧ slide_masters d = slide_masters prs)
    ∧ (∀ p, p ∉ file <$> seq 0 n → σ' !! p = σ !! p).
Proof.
  set (keep x := list_to_set (range x (Z.min (x + C) T)) : gset Z).
  set (d x := match retain_slides (keep x) prs with
              | Ok d => d
              | Raise _ => prs
              end).
  set (xs := (λ k : nat, Z.of_nat k * C) <$> seq 0 n).
  assert (range_step 0 T C = xs) as Hxs.
  { unfold range_step, xs, n. rewrite Z.sub_0_r.
    rewrite ceil_div_spec by lia. done. }
  assert (∀ x, x ∈ xs → retain_slides (keep x) prs = Ok (d x)) as Hd.
  { intros x _. unfold d.
    destruct (retain_slides_spec prs (keep x) ss Hslides)
      as (prs' & -> & _). done. }
  assert (NoDup (joinpath output_dir
                 ∘ (λ x, split_file_name (stem input_file) C x
                           (Z.min (x + C) T)) <$> xs)) as Hnd.
  { apply NoDup_fmap_2_strong.
    - intros x y [kx [-> _]]%list_elem_of_fmap
        [ky [-> _]]%list_elem_of_fmap Heq.
      eapply (out_inj input_file output_dir C T); [lia|lia|done].
    - apply NoDup_fmap_2; [|apply NoDup_seq].
      intros a b Hab. nia. }
  destruct (split_loop input_file output_dir C T prs d xs σ [] Hfile Hd Hnd)
    as (σ' & Hrun & Hin & Hfiles & Hframe).
  assert ((joinpath output_dir
           ∘ (λ x, split_file_name (stem input_file) C x
                     (Z.min (x + C) T)) <$> xs) = file <$> seq 0 n)
    as Hnames.
  { unfold xs. rewrite <- list_fmap_compose. done. }
  exists σ'. split; [|split; [done|split]].
  - unfold split_presentation.
    rewrite (st_bind_ok _ _ _ _ _ (path_exists_ok _ _ _ Hfile)). simpl.
    unfold mkdir at 1.
    rewrite (st_bind_ok _ _ σ () σ eq_refl).
    rewrite (st_bind_ok _ _ _ _ _ (Presentation_ok _ _ _ Hfile)).
    rewrite (st_bind_ok (lift (len_slides prs)) _ σ (length ss) σ).
    2:{ unfold lift. rewrite (len_slides_spec _ _ Hslides).
        by rewrite (slides_length _ _ Hslides). }
    fold T. destruct (T =? 0) eqn:E0; [apply Z.eqb_eq in E0; lia|].
    rewrite <- Hnames. unfold C in *.
    destruct chunk_size as [c|]; simpl in *.
    + destruct (c <? 1) eqn:E1; [apply Z.ltb_lt in E1; lia|].
      rewrite Hxs. apply Hrun.
    + rewrite Hxs. apply Hrun.
  - intros k Hk.
    assert (Z.of_nat k * C ∈ xs) as Hx.
    { apply list_elem_of_fmap. exists k. split; [done|].
      apply elem_of_seq. lia. }
    exists (d (Z.of_nat k * C)). split; [by apply Hfiles|].
    pose proof (chunk_start_lt T C k HC ltac:(lia) Hk) as Hlt.
    destruct (retain_slides_spec prs (keep (Z.of_nat k * C)) ss Hslides)
      as (prs' & Hret & _ & Hs & _ & Hms).
    unfold d. rewrite Hret. split; [|done].
    rewrite Hs. f_equal. unfold keep, T. apply kept_chunk; [done|].
    fold T. lia.
  - rewrite <- Hnames. apply Hframe.
Qed.
End split_spec.

(** C2. For a source presentation with T ≥ 1 slides and a chunk size
    C ≥ 1 (1 when none is given), [split_presentation] returns
    ceil(T/C) files; the k-th file holds the k-th chunk of the slides;
    every chunk but the last has C slides and the last has T mod C slides,
    or C when C divides T; the chunks one after the other are the slides
    of the source in their order. *)
Theorem split_presentation_chunks (σ : fs) (input_file output_dir : Path)
    (chunk_size : option Z) (prs : deck) (ss : list slide) :
  σ !! input_file = Some (PptxFile prs) →
  slides prs = Ok ss →
  1 ≤ Z.of_nat (length ss) →
  1 ≤ default 1 chunk_size →
  ∃ (files : list Path) (σ' : fs) (chunks : list (list slide)),
    split_presentation input_file output_dir chunk_size σ = (Ok files, σ')
    ∧ Z.of_nat (length files)
      = ceil_div (Z.of_nat (length ss)) (default 1 chunk_size)
    ∧ Forall2 (λ f ch, slides_at σ' f = Some ch) files chunks
    ∧ (∀ k ch, chunks !! k = Some ch →
         Z.of_nat (length ch)
         = if decide (S k < length chunks)%nat then default 1 chunk_size
           else if Z.of_nat (length ss) `mod` default 1 chunk_size =? 0
                then default 1 chunk_size
                else Z.of_nat (length ss) `mod` default 1 chunk_size)
    ∧ concat chunks = ss.
Proof.
  intros Hfile Hslides HT HC.
  destruct (split_presentation_spec σ input_file output_dir prs ss chunk_size
              Hfile Hslides HT HC) as (σ' & Hrun & _ & Hfiles & _).
  set (T := Z.of_nat (length ss)) in *. set (C := default 1 chunk_size) in *.
  set (n := Z.to_nat (ceil_div T C)) in *.
  pose proof (ceil_div_pos T C HC HT) as Hn.
  pose proof (Z.div_mod T C ltac:(lia)) as Hdm.
  pose proof (Z.mod_pos_bound T C ltac:(lia)) as Hb.
  eexists _, σ', ((λ k, chunk (Z.to_nat C) k ss) <$> seq 0 n).
  split; [exact Hrun|]. split; [|split; [|split]].
  - rewrite length_fmap, length_seq. lia.
  - apply Forall2_fmap, Forall2_same_length_lookup. split; [done|].
    intros i k k' Hk Hk'. rewrite Hk in Hk'. injection Hk' as <-.
    apply lookup_seq in Hk as [-> Hk]. simpl.
    destruct (Hfiles i Hk) as (d & Hd & Hs & _).
    unfold slides_at. by rewrite Hd, Hs.
  - intros k ch Hch. rewrite length_fmap, length_seq.
    apply list_lookup_fmap_Some in Hch as (k' & -> & Hk).
    apply lookup_seq in Hk as [-> Hk]. simpl.
    rewrite chunk_length. fold T.
    case_decide as Hlast.
    + pose proof (chunk_start_lt T C (S k) HC ltac:(lia) Hlast). lia.
    + assert (Z.of_nat k = ceil_div T C - 1) as Hkn by lia.
      unfold ceil_div in Hkn.
      destruct (T `mod` C =? 0) eqn:E.
      * apply Z.eqb_eq in E. nia.
      * apply Z.eqb_neq in E. nia.
  - rewrite concat_chunks. apply take_ge.
    assert (T ≤ ceil_div T C * C); [|subst T n; nia].
    unfold ceil_div. destruct (T `mod` C =? 0) eqn:E.
    + apply Z.eqb_eq in E. nia.
    + nia.
Qed.

Lemma split_presentation_chunks_witness :
  ∃ (files : list Path) (σ' : fs) (chunks : list (list slide)),
    split_presentation deck_path out_dir (Some 2) (disk (deck3 office_master))
    = (Ok files, σ')
    ∧ Z.of_nat (length files) = ceil_div 3 2
    ∧ Forall2 (λ f ch, slides_at σ' f = Some ch) files chunks
    ∧ (∀ k ch, chunks !! k = Some ch →
         Z.of_nat (length ch)
         = if decide (S k < length chunks)%nat then 2
           else if 3 `mod` 2 =? 0 then 2 else 3 `mod` 2)
    ∧ concat chunks = [slide_a; slide_b; slide_c].
Proof.
  apply (split_presentation_chunks (disk (deck3 office_master)) deck_path
           out_dir (Some 2) (deck3 office_master)
           [slide_a; slide_b; slide_c]).
  - vm_compute. reflexivity.
  - vm_compute. reflexivity.
  - simpl. lia.
  - simpl. lia.
Defined.



(** ** Adding slides *)

Section adding.
Implicit Types (prs m : deck) (rs : gmap string slide) (ss : list slide).

Lemma rId_of_inj : Inj (=) (=) rId_of.
Proof.
  intros a b H. unfold rId_of in H.
  apply String.app_inj in H. by apply (inj pretty) in H.
Qed.

(** There is always a free relationship id, and it is the one chosen. *)
Lemma next_rId_fresh rs : ∃ rId, next_rId rs = Ok rId ∧ rs !! rId = None.
Proof.
  unfold next_rId.
  destruct (list_find _ _) as [[i k]|] eqn:E.
  - apply list_find_Some in E as (_ & Hk & _). eauto.
  - exfalso. apply list_find_None in E.
    set (cands := rId_of <$> seq 1 (S (size rs))).
    assert (NoDup cands) as Hnd.
    { apply NoDup_fmap; [apply rId_of_inj|apply NoDup_seq]. }
    assert ((list_to_set cands : gset string) ⊆ dom rs) as Hsub.
    { intros r [k [-> Hk]]%elem_of_list_to_set%list_elem_of_fmap.
      apply elem_of_dom.
      rewrite Forall_forall in E.
      specialize (E k). rewrite elem_of_reverse in E.
      destruct (rs !! rId_of k) eqn:Hr; [eauto|]. by destruct (E Hk). }
    apply subseteq_size in Hsub.
    rewrite size_list_to_set, size_dom in Hsub by done.
    unfold cands in Hsub. rewrite length_fmap, length_seq in Hsub. lia.
Qed.

Lemma deepcopy_id (sp : list shape) : deepcopy <$> sp = sp.
Proof.
  induction sp as [|[i x] sp IH]; [done|]. csimpl. by rewrite IH.
Qed.

Lemma add_slide_spec lay prs ss :
  slides prs = Ok ss →
  ∃ rId,
    add_slide lay prs
    = Ok (rId,
          mk_deck (sldIdLst prs ++ [rId])
            (<[rId := mk_slide (layout_name lay)
                        (Some (layout_placeholders lay)) Inherited]>
               (rels prs))
            (slide_masters prs))
    ∧ rels prs !! rId = None.
Proof.
  intros Hss. unfold add_slide. rewrite Hss. simpl.
  destruct (next_rId_fresh (rels prs)) as (rId & -> & Hfresh). simpl.
  rewrite deepcopy_id. eauto.
Qed.

Lemma on_slide_insert {A} rId (f : ST slide A) l rs ms s :
  on_slide rId f (mk_deck l (<[rId := s]> rs) ms)
  = (a ← (f s).1; Ok (a, mk_deck l (<[rId := (f s).2]> rs) ms)).
Proof.
  unfold on_slide, related_slide. simpl. rewrite lookup_insert_eq. simpl.
  destruct (f s) as [r s']. simpl. by rewrite insert_insert_eq.
Qed.

(** The loop that copies the shapes appends them to the new slide. *)
Lemma copy_shapes_spec rId l rs ms ly bg sp :
  ∀ sp0,
  for_fold (λ prs el,
              let newel := deepcopy el in
              snd <$> on_slide rId (spTree_append newel) prs)
    sp (mk_deck l (<[rId := mk_slide ly (Some sp0) bg]> rs) ms)
  = Ok (mk_deck l (<[rId := mk_slide ly (Some (sp0 ++ sp)) bg]> rs) ms).
Proof.
  induction sp as [|[i x] sp IH]; intros sp0; simpl.
  { by rewrite app_nil_r. }
  rewrite on_slide_insert. simpl. rewrite IH.
  by rewrite <- app_assoc.
Qed.

(** Copying the background never raises: the new slide ends with a
    solid fill, coloured when the colour of the source can be read. *)
Lemma copy_background_spec src ly tree bg :
  copy_background src (mk_slide ly tree bg)
  = (Ok (), mk_slide ly tree (merged_background (background src))).
Proof.
  unfold copy_background, merged_background, st_try_except.
  destruct (background src) as [| |[]|[]| |]; reflexivity.
Qed.

Lemma blank_layout_of_spec m layouts lay :
  slide_layouts m = Ok layouts → blank_of layouts = Some lay →
  blank_layout_of m = Ok lay.
Proof.
  unfold blank_layout_of, blank_of, try_except, getitem.
  intros -> Hlay. simpl.
  destruct (layouts !! 6%nat); simpl; [congruence|].
  by rewrite Hlay.
Qed.

Lemma blank_layout_of_masters m m' :
  slide_masters m = slide_masters m' →
  blank_layout_of m = blank_layout_of m'.
Proof.
  unfold blank_layout_of, slide_layouts. by intros ->.
Qed.

(** The body of the slide loop adds one slide at the end. *)
Lemma merge_slide_spec m ss lay src :
  slides m = Ok ss → blank_layout_of m = Ok lay → is_Some (spTree src) →
  ∃ m', merge_slide m src = Ok m'
        ∧ slides m' = Ok (ss ++ [recreated lay src])
        ∧ slide_masters m' = slide_masters m.
Proof.
  intros Hss Hlay [sp Hsp]. unfold merge_slide. rewrite Hlay. simpl.
  destruct (add_slide_spec lay m ss Hss) as (rId & -> & Hfresh). simpl.
  unfold shapes. rewrite Hsp. simpl.
  rewrite copy_shapes_spec. simpl.
  rewrite on_slide_insert, copy_background_spec. simpl.
  eexists. split; [done|]. split; [|done].
  apply slides_spec. simpl. apply slides_spec in Hss.
  apply Forall2_app.
  - eapply Forall2_impl; [exact Hss|]. intros r s Hr. simpl in Hr.
    rewrite lookup_insert_ne; [done|]. intros ->. congruence.
  - repeat constructor. rewrite lookup_insert_eq.
    unfold recreated. by rewrite Hsp.
Qed.

Lemma merge_slides_spec lay srcs :
  ∀ m ss,
  slides m = Ok ss → blank_layout_of m = Ok lay → readable srcs →
  ∃ m', for_fold merge_slide srcs m = Ok m'
        ∧ slides m' = Ok (ss ++ (recreated lay <$> srcs))
        ∧ slide_masters m' = slide_masters m.
Proof.
  induction srcs as [|src srcs IH]; intros m ss Hss Hlay Hread; simpl.
  { exists m. by rewrite app_nil_r. }
  apply Forall_cons in Hread as [Hsrc Hread].
  destruct (merge_slide_spec m ss lay src Hss Hlay Hsrc)
    as (m1 & -> & Hss1 & Hms1). simpl.
  destruct (IH m1 _ Hss1) as (m' & -> & Hss' & Hms'); [|done|].
  { by rewrite (blank_layout_of_masters m1 m). }
  exists m'. split; [done|]. rewrite <- app_assoc in Hss'.
  split; [done|congruence].
Qed.
End adding.

(** ** Merging *)

Section merging.
Implicit Types (σ : fs) (m : deck) (ss : list slide).

Lemma merge_file_spec σ lay m ss file srcs :
  slides m = Ok ss → blank_layout_of m = Ok lay → source_of σ file srcs →
  ∃ m', merge_file m file σ = (Ok m', σ)
        ∧ slides m' = Ok (ss ++ (recreated lay <$> srcs))
        ∧ slide_masters m' = slide_masters m.
Proof.
  intros Hss Hlay (prs & Hfile & Hsrcs & Hread). unfold merge_file.
  rewrite (st_bind_ok _ _ _ _ _ (Presentation_ok _ _ _ Hfile)).
  unfold lift at 1. rewrite (st_bind_ok _ _ σ srcs σ) by by rewrite Hsrcs.
  destruct (merge_slides_spec lay srcs m ss Hss Hlay Hread)
    as (m' & Hrun & Hss' & Hms').
  exists m'. unfold lift. by rewrite Hrun.
Qed.

Lemma merge_files_spec σ lay files :
  ∀ sss m ss,
  slides m = Ok ss → blank_layout_of m = Ok lay →
  Forall2 (source_of σ) files sss →
  ∃ m', st_fold merge_file files m σ = (Ok m', σ)
        ∧ slides m' = Ok (ss ++ (recreated lay <$> concat sss))
        ∧ slide_masters m' = slide_masters m.
Proof.
  induction files as [|file files IH]; intros sss m ss Hss Hlay Hsrc.
  { inversion Hsrc; subst. exists m. simpl. by rewrite app_nil_r. }
  inversion Hsrc as [|? srcs ? sss' Hfile Hrest]; subst. simpl.
  destruct (merge_file_spec σ lay m ss file srcs Hss Hlay Hfile)
    as (m1 & Hrun1 & Hss1 & Hms1).
  rewrite (st_bind_ok _ _ _ _ _ Hrun1).
  destruct (IH sss' m1 _ Hss1) as (m' & -> & Hss' & Hms'); [|done|].
  { by rewrite (blank_layout_of_masters m1 m). }
  exists m'. split; [done|].
  rewrite fmap_app, app_assoc. split; [done|congruence].
Qed.

Lemma exists_loop_ok σ (files : list Path) :
  Forall (λ file, is_Some (σ !! file)) files →
  st_for (λ file,
            found ← path_exists file;
            if negb found then
              st_raise FileNotFoundError
                ("Input file not found: " +:+ str_path file)
            else mret ())
    files σ = (Ok (), σ).
Proof.
  induction 1 as [|file files [x Hx] _ IH]; [done|]. simpl.
  rewrite (st_bind_ok _ _ σ () σ); [done|].
  by rewrite (st_bind_ok _ _ _ _ _ (path_exists_ok _ _ _ Hx)).
Qed.

(** The merge of a base file and later sources. *)
Lemma merge_presentations_spec σ first remaining output_file base ss lay
    sss :
  σ !! first = Some (PptxFile base) →
  slides base = Ok ss →
  blank_layout_of base = Ok lay →
  Forall2 (source_of σ) remaining sss →
  ∃ merged,
    merge_presentations (first :: remaining) output_file σ
    = (Ok output_file, <[output_file := PptxFile merged]> σ)
    ∧ slides merged = Ok (ss ++ (recreated lay <$> concat sss))
    ∧ slide_masters merged = slide_masters base.
Proof.
  intros Hfirst Hss Hlay Hsrc. unfold merge_presentations.
  rewrite (st_bind_ok _ _ σ () σ).
  2:{ apply exists_loop_ok. constructor; [eauto|].
      clear -Hsrc. induction Hsrc as [|? ? ? ? (prs & Hf & _)];
        constructor; eauto. }
  rewrite (st_bind_ok _ _ _ _ _ (Presentation_ok _ _ _ Hfirst)).
  destruct (merge_files_spec σ lay remaining sss base ss Hss Hlay Hsrc)
    as (merged & Hrun & Hss' & Hms').
  rewrite (st_bind_ok _ _ _ _ _ Hrun).
  exists merged. done.
Qed.
End merging.

(** C3. For a base file and later source files that open as
    presentations (slides listed, shape trees readable, and a layout at
    index 6 or else at index 0 in the base), [merge_presentations] writes
    a deck whose slides are the slides of the base followed, source by
    source and slide by slide, by one new slide per source slide: a+b+c+…
    slides in all. Each new slide is on the layout at index 6 of the
    base, or on its first layout when there is none at index 6, and its
    shapes are the placeholders of that layout followed by the shapes of
    the source slide in their order. *)
Theorem merge_presentations_concatenates (σ : fs) (first : Path)
    (remaining : list Path) (output_file : Path) (base : deck)
    (ss : list slide) (layouts : list layout) (lay : layout)
    (sss : list (list slide)) :
  σ !! first = Some (PptxFile base) →
  slides base = Ok ss →
  slide_layouts base = Ok layouts →
  blank_of layouts = Some lay →
  Forall2 (source_of σ) remaining sss →
  ∃ merged news,
    merge_presentations (first :: remaining) output_file σ
    = (Ok output_file, <[output_file := PptxFile merged]> σ)
    ∧ slides merged = Ok (ss ++ news)
    ∧ length (ss ++ news) = (length ss + sum_list (length <$> sss))%nat
    ∧ slide_masters merged = slide_masters base
    ∧ (layouts !! 6%nat = Some lay
       ∨ (length layouts < 7)%nat ∧ layouts !! 0%nat = Some lay)
    ∧ Forall2 (λ new src,
                 slide_layout new = layout_name lay
                 ∧ ∃ sp, shapes src = Ok sp
                         ∧ shapes new = Ok (layout_placeholders lay ++ sp))
        news (concat sss).
Proof.
  intros Hfirst Hss Hlayouts Hlay Hsrc.
  pose proof (blank_layout_of_spec base layouts lay Hlayouts Hlay) as Hblank.
  destruct (merge_presentations_spec σ first remaining output_file base ss
              lay sss Hfirst Hss Hblank Hsrc) as (merged & Hrun & Hm & Hms).
  exists merged, (recreated lay <$> concat sss).
  split; [done|]. split; [done|]. split; [|split; [done|split]].
  - rewrite length_app, length_fmap. f_equal.
    clear. induction sss as [|x sss IH]; [done|].
    simpl. rewrite length_app. by rewrite IH.
  - unfold blank_of in Hlay.
    destruct (layouts !! 6%nat) eqn:E6; [by left|]. right.
    split; [|done]. apply lookup_ge_None in E6. lia.
  - apply Forall2_fmap_l, Forall_Forall2_diag, Forall_forall.
    intros src Hin. split; [done|].
    assert (is_Some (spTree src)) as [sp Hsp].
    { apply elem_of_concat in Hin as (srcs & Hin & Hsrcs).
      apply list_elem_of_lookup in Hsrcs as [i Hi].
      destruct (Forall2_lookup_r _ _ _ _ _ Hsrc Hi)
        as (file & _ & prs & _ & _ & Hread).
      unfold readable in Hread. rewrite Forall_forall in Hread.
      by apply Hread. }
    exists sp. unfold shapes, recreated. simpl. by rewrite Hsp.
Qed.

Lemma merge_presentations_concatenates_witness :
  ∃ merged news,
    merge_presentations [first_path; second_path] merged_path two_files
    = (Ok merged_path, <[merged_path := PptxFile merged]> two_files)
    ∧ slides merged = Ok ([slide_a; slide_b; slide_c] ++ news)
    ∧ length ([slide_a; slide_b; slide_c] ++ news)
      = (3 + sum_list (length <$> [[slide_b; slide_c]]))%nat
    ∧ slide_masters merged = [office_master]
    ∧ (master_layouts office_master !! 6%nat = Some blank_layout
       ∨ (length (master_layouts office_master) < 7)%nat
         ∧ master_layouts office_master !! 0%nat = Some blank_layout)
    ∧ Forall2 (λ new src,
                 slide_layout new = layout_name blank_layout
                 ∧ ∃ sp, shapes src = Ok sp
                         ∧ shapes new
                           = Ok (layout_placeholders blank_layout ++ sp))
        news (concat [[slide_b; slide_c]]).
Proof.
  apply (merge_presentations_concatenates two_files first_path [second_path]
           merged_path (deck3 office_master) [slide_a; slide_b; slide_c]
           (master_layouts office_master) blank_layout [[slide_b; slide_c]]).
  - vm_compute. reflexivity.
  - vm_compute. reflexivity.
  - reflexivity.
  - reflexivity.
  - repeat constructor. exists deck2.
    split; [vm_compute; reflexivity|].
    split; [vm_compute; reflexivity|].
    repeat constructor; simpl; eauto.
Defined.

(** C8. The attempt to copy a background never raises, whatever the
    source background is. So, for sources that open as presentations (as
    in C3), [merge_presentations] returns the output path and writes the
    merged deck whether or not reading a source background failed; no
    other file changes. A new slide gets a solid fill with the source
    colour when that could be read, and a solid fill without colour when
    reading it raised. *)
Theorem merge_survives_background_failures (σ : fs) (first : Path)
    (remaining : list Path) (output_file : Path) (base : deck)
    (ss : list slide) (layouts : list layout) (lay : layout)
    (sss : list (list slide)) :
  σ !! first = Some (PptxFile base) →
  slides base = Ok ss →
  slide_layouts base = Ok layouts →
  blank_of layouts = Some lay →
  Forall2 (source_of σ) remaining sss →
  (∀ src new, (copy_background src new).1 = Ok ())
  ∧ ∃ merged news,
      merge_presentations (first :: remaining) output_file σ
      = (Ok output_file, <[output_file := PptxFile merged]> σ)
      ∧ slides merged = Ok (ss ++ news)
      ∧ Forall2 (λ new src,
                   background new
                   = match background_rgb src with
                     | Ok hex => SolidFill (RGB hex)
                     | Raise _ => SolidFill NoColor
                     end)
          news (concat sss).
Proof.
  intros Hfirst Hss Hlayouts Hlay Hsrc. split.
  { intros src [ly tree bg]. by rewrite copy_background_spec. }
  pose proof (blank_layout_of_spec base layouts lay Hlayouts Hlay) as Hblank.
  destruct (merge_presentations_spec σ first remaining output_file base ss
              lay sss Hfirst Hss Hblank Hsrc) as (merged & Hrun & Hm & Hms).
  exists merged, (recreated lay <$> concat sss).
  split; [done|]. split; [done|].
  apply Forall2_fmap_l, Forall_Forall2_diag, Forall_forall.
  intros src _. done.
Qed.

Lemma merge_survives_background_failures_witness :
  (∀ src new, (copy_background src new).1 = Ok ())
  ∧ ∃ merged news,
      merge_presentations [first_path; second_path] merged_path two_files
      = (Ok merged_path, <[merged_path := PptxFile merged]> two_files)
      ∧ slides merged = Ok ([slide_a; slide_b; slide_c] ++ news)
      ∧ Forall2 (λ new src,
                   background new
                   = match background_rgb src with
                     | Ok hex => SolidFill (RGB hex)
                     | Raise _ => SolidFill NoColor
                     end)
          news (concat [[slide_b; slide_c]]).
Proof.
  apply (merge_survives_background_failures two_files first_path
           [second_path] merged_path (deck3 office_master)
           [slide_a; slide_b; slide_c] (master_layouts office_master)
           blank_layout [[slide_b; slide_c]]).
  - vm_compute. reflexivity.
  - vm_compute. reflexivity.
  - reflexivity.
  - reflexivity.
  - repeat constructor. exists deck2.
    split; [vm_compute; reflexivity|].
    split; [vm_compute; reflexivity|].
    repeat constructor; simpl; eauto.
Defined.

(** C10. Merging a single file that opens as a presentation loads it,
    runs the loop over later sources on no source, and writes the loaded
    presentation unchanged to the output path, which is returned; the
    slides at the output path are those of the source. *)
Theorem merge_single_file_identity (σ : fs) (file output_file : Path)
    (prs : deck) :
  σ !! file = Some (PptxFile prs) →
  merge_presentations [file] output_file σ
  = (Ok output_file, <[output_file := PptxFile prs]> σ)
  ∧ st_fold merge_file [] prs σ = (Ok prs, σ)
  ∧ slides_at (<[output_file := PptxFile prs]> σ) output_file
    = slides_at σ file.
Proof.
  intros Hfile. split; [|split].
  - unfold merge_presentations. simpl.
    rewrite (st_bind_ok _ _ σ () σ).
    2:{ rewrite (st_bind_ok _ _ σ () σ); [done|].
        by rewrite (st_bind_ok _ _ _ _ _ (path_exists_ok _ _ _ Hfile)). }
    by rewrite (st_bind_ok _ _ _ _ _ (Presentation_ok _ _ _ Hfile)).
  - done.
  - unfold slides_at. by rewrite lookup_insert_eq, Hfile.
Qed.

Lemma merge_single_file_identity_witness :
  merge_presentations [deck_path] merged_path (disk deck2)
  = (Ok merged_path, <[merged_path := PptxFile deck2]> (disk deck2))
  ∧ st_fold merge_file [] deck2 (disk deck2) = (Ok deck2, disk deck2)
  ∧ slides_at (<[merged_path := PptxFile deck2]> (disk deck2)) merged_path
    = slides_at (disk deck2) deck_path.
Proof.
  apply (merge_single_file_identity (disk deck2) deck_path merged_path deck2).
  vm_compute. reflexivity.
Defined.

(** ** Splitting and merging back *)

Section roundtrip.
Variables (σ : fs) (input_file output_dir output_file : Path)
          (prs : deck) (ss : list slide) (layouts : list layout)
          (lay : layout).
Hypothesis Hfile : σ !! input_file = Some (PptxFile prs).
Hypothesis Hslides : slides prs = Ok ss.
Hypothesis HT : (1 ≤ length ss)%nat.
Hypothesis Hread : readable ss.
Hypothesis Hlayouts : slide_layouts prs = Ok layouts.
Hypothesis Hlay : blank_of layouts = Some lay.

Lemma split_merge_spec :
  ∃ files σ1 merged,
    split_presentation input_file output_dir None σ = (Ok files, σ1)
    ∧ length files = length ss
    ∧ merge_presentations files output_file σ1
      = (Ok output_file, <[output_file := PptxFile merged]> σ1)
    ∧ slides merged = Ok (take 1 ss ++ (recreated lay <$> drop 1 ss)).
Proof.
  destruct (split_presentation_spec σ input_file output_dir prs ss None
              Hfile Hslides ltac:(lia) ltac:(simpl; lia))
    as (σ1 & Hrun & _ & Hfiles & _).
  assert (Z.to_nat (ceil_div (Z.of_nat (length ss)) 1) = length ss) as Hn.
  { unfold ceil_div. rewrite Z.mod_1_r, Z.div_1_r. simpl. lia. }
  change (default 1 None) with 1 in Hrun, Hfiles.
  rewrite Hn in Hrun, Hfiles.
  set (file := split_file input_file output_dir 1 (Z.of_nat (length ss)))
    in *.
  assert (∃ n, length ss = S n) as [n Hlen]
    by (destruct (length ss); [lia|eauto]).
  rewrite Hlen in Hrun, Hfiles.
  change (seq 0 (S n)) with (0%nat :: seq 1 n) in Hrun.
  rewrite fmap_cons in Hrun.
  change (Z.to_nat 1) with 1%nat in Hfiles.
  set (sss := (λ k, chunk 1 k ss) <$> seq 1 n).
  destruct (Hfiles 0%nat ltac:(lia)) as (base & Hbase & Hbss & Hbms).
  assert (blank_layout_of base = Ok lay) as Hblank.
  { rewrite (blank_layout_of_masters base prs Hbms).
    by eapply blank_layout_of_spec. }
  assert (Forall2 (source_of σ1) (file <$> seq 1 n) sss) as Hsrc.
  { apply Forall2_fmap, Forall_Forall2_diag, Forall_forall.
    intros k Hk%elem_of_seq.
    destruct (Hfiles k ltac:(lia)) as (d & Hd & Hdss & _).
    exists d. split; [done|]. split; [done|].
    by apply Forall_take, Forall_drop. }
  destruct (merge_presentations_spec σ1 (file 0%nat) (file <$> seq 1 n)
              output_file base _ lay sss Hbase Hbss Hblank Hsrc)
    as (merged & Hmerge & Hm & _).
  exists (file 0%nat :: (file <$> seq 1 n)), σ1, merged.
  split; [done|]. split; [simpl; by rewrite length_fmap, length_seq|].
  split; [done|]. rewrite Hm.
  pose proof (concat_chunks ss 1 (S n)) as Hcc.
  rewrite take_ge in Hcc by lia.
  change (seq 0 (S n)) with (0%nat :: seq 1 n) in Hcc.
  rewrite fmap_cons in Hcc. fold sss in Hcc.
  change (concat (chunk 1 0 ss :: sss)) with (take 1 ss ++ concat sss)
    in Hcc.
  rewrite <- (take_drop 1 ss) in Hcc at 2.
  apply app_inv_head in Hcc. by rewrite Hcc.
Qed.
End roundtrip.

(** C6, as far as it holds. Splitting a deck with T ≥ 1 slides (slides
    listed, shape trees readable, a layout at index 6 or else at index 0)
    into single-slide files and merging these files in the returned order
    gives a deck with T slides. Its first slide is the first slide of the
    source. Each later slide is a new slide whose shapes are the
    placeholders of the chosen layout followed by the shapes of the source
    slide at the same position, in their order; when the chosen layout has
    no placeholders, every slide has exactly the shapes of the source
    slide. Nothing is said about backgrounds. *)
Theorem split_merge_roundtrip (σ : fs)
    (input_file output_dir output_file : Path) (prs : deck)
    (ss : list slide) (layouts : list layout) (lay : layout) :
  σ !! input_file = Some (PptxFile prs) →
  slides prs = Ok ss →
  (1 ≤ length ss)%nat →
  readable ss →
  slide_layouts prs = Ok layouts →
  blank_of layouts = Some lay →
  ∃ files σ1 merged merged_ss,
    split_presentation input_file output_dir None σ = (Ok files, σ1)
    ∧ merge_presentations files output_file σ1
      = (Ok output_file, <[output_file := PptxFile merged]> σ1)
    ∧ slides merged = Ok merged_ss
    ∧ length merged_ss = length ss
    ∧ head merged_ss = head ss
    ∧ Forall2 (λ new old,
                 ∃ sp, shapes old = Ok sp
                       ∧ shapes new = Ok (layout_placeholders lay ++ sp))
        (tail merged_ss) (tail ss)
    ∧ (layout_placeholders lay = [] →
       Forall2 (λ new old, shapes new = shapes old) merged_ss ss).
Proof.
  intros Hfile Hslides HT Hread Hlayouts Hlay.
  destruct (split_merge_spec σ input_file output_dir output_file prs ss
              layouts lay Hfile Hslides HT Hread Hlayouts Hlay)
    as (files & σ1 & merged & Hsplit & _ & Hmerge & Hm).
  exists files, σ1, merged, (take 1 ss ++ (recreated lay <$> drop 1 ss)).
  destruct ss as [|s0 rest]; [simpl in HT; lia|].
  change (take 1 (s0 :: rest)) with [s0] in *.
  change (drop 1 (s0 :: rest)) with rest in *. simpl in *.
  apply Forall_cons in Hread as [_ Hrest].
  assert (Forall2 (λ new old,
                     ∃ sp, shapes old = Ok sp
                           ∧ shapes new = Ok (layout_placeholders lay ++ sp))
            (recreated lay <$> rest) rest) as Hnew.
  { apply Forall2_fmap_l, Forall_Forall2_diag.
    eapply Forall_impl; [exact Hrest|]. intros s [sp Hsp].
    exists sp. unfold shapes, recreated. simpl. by rewrite Hsp. }
  repeat split; try done.
  - by rewrite length_fmap.
  - intros Hnil. constructor; [done|].
    eapply Forall2_impl; [exact Hnew|]. intros new old (sp & -> & ->).
    by rewrite Hnil.
Qed.

Lemma split_merge_roundtrip_witness :
  ∃ files σ1 merged merged_ss,
    split_presentation deck_path out_dir None (disk (deck3 office_master))
    = (Ok files, σ1)
    ∧ merge_presentations files merged_path σ1
      = (Ok merged_path, <[merged_path := PptxFile merged]> σ1)
    ∧ slides merged = Ok merged_ss
    ∧ length merged_ss = length [slide_a; slide_b; slide_c]
    ∧ head merged_ss = head [slide_a; slide_b; slide_c]
    ∧ Forall2 (λ new old,
                 ∃ sp, shapes old = Ok sp
                       ∧ shapes new
                         = Ok (layout_placeholders blank_layout ++ sp))
        (tail merged_ss) (tail [slide_a; slide_b; slide_c])
    ∧ (layout_placeholders blank_layout = [] →
       Forall2 (λ new old, shapes new = shapes old) merged_ss
         [slide_a; slide_b; slide_c]).
Proof.
  apply (split_merge_roundtrip (disk (deck3 office_master)) deck_path out_dir
           merged_path (deck3 office_master) [slide_a; slide_b; slide_c]
           (master_layouts office_master) blank_layout).
  - vm_compute. reflexivity.
  - vm_compute. reflexivity.
  - simpl. lia.
  - repeat constructor; simpl; eauto.
  - reflexivity.
  - reflexivity.
Defined.

(** C6 as it was claimed fails: on a deck whose first master has a single
    layout, with a title placeholder, the slides made by the merge carry
    a copy of that placeholder before the shapes of the source slide. *)
Lemma roundtrip_adds_layout_placeholders :
  ∃ files σ1 σ2 merged merged_ss,
    slides (deck3 small_master) = Ok [slide_a; slide_b; slide_c]
    ∧ split_presentation deck_path out_dir None (disk (deck3 small_master))
      = (Ok files, σ1)
    ∧ merge_presentations files merged_path σ1 = (Ok merged_path, σ2)
    ∧ σ2 !! merged_path = Some (PptxFile merged)
    ∧ slides merged = Ok merged_ss
    ∧ shapes <$> merged_ss
      = [Ok [title_ph];
         Ok [title_ph; text_box "b1"; text_box "b2"];
         Ok [title_ph; text_box "c1"]]
    ∧ shapes <$> [slide_a; slide_b; slide_c]
      = [Ok [title_ph];
         Ok [text_box "b1"; text_box "b2"];
         Ok [text_box "c1"]]
    ∧ shapes <$> merged_ss ≠ shapes <$> [slide_a; slide_b; slide_c].
Proof.
  set (σ0 := disk (deck3 small_master)).
  set (files := [joinpath out_dir "deck_slide_001.pptx";
                 joinpath out_dir "deck_slide_002.pptx";
                 joinpath out_dir "deck_slide_003.pptx"]).
  set (σ1 := (split_presentation deck_path out_dir None σ0).2).
  set (σ2 := (merge_presentations files merged_path σ1).2).
  set (merged := match σ2 !! merged_path with
                 | Some (PptxFile m) => m
                 | _ => empty_deck
                 end).
  set (merged_ss := match slides merged with Ok l => l | Raise _ => [] end).
  exists files, σ1, σ2, merged, merged_ss.
  split; [vm_compute; reflexivity|].
  split.
  { assert ((split_presentation deck_path out_dir None σ0).1 = Ok files)
      as Hfiles by (vm_compute; reflexivity).
    rewrite (surjective_pairing (split_presentation _ _ _ _)), Hfiles.
    reflexivity. }
  split.
  { assert ((merge_presentations files merged_path σ1).1 = Ok merged_path)
      as Hpath by (vm_compute; reflexivity).
    rewrite (surjective_pairing (merge_presentations _ _ _)), Hpath.
    reflexivity. }
  split.
  { assert (match σ2 !! merged_path with
            | Some (PptxFile _) => true
            | _ => false
            end = true) as Hsaved by (vm_compute; reflexivity).
    unfold merged. by destruct (σ2 !! merged_path) as [[m|?]|]. }
  split.
  { assert (match slides merged with Ok _ => true | Raise _ => false end
            = true) as Hlisted by (vm_compute; reflexivity).
    unfold merged_ss. by destruct (slides merged). }
  assert (shapes <$> merged_ss
          = [Ok [title_ph];
             Ok [title_ph; text_box "b1"; text_box "b2"];
             Ok [title_ph; text_box "c1"]]) as Hmerged
    by (vm_compute; reflexivity).
  split; [exact Hmerged|].
  split; [reflexivity|].
  rewrite Hmerged. discriminate.
Qed.

(** ** Extracting *)

(** C4, as far as it holds. On a deck with at least one slide (slides
    listed): a start below 1 or above the slide count raises a
    [ValueError] whose message names the bounds 1 and the slide count; an
    end (the slide count when none is given) below the start or above the
    slide count raises a [ValueError] whose message names the bounds start
    and the slide count; in both cases no file is written; every other
    start and end writes the slides from start to end to the output file
    and returns its path. *)
Theorem extract_slides_validates (σ : fs) (input_file output_file : Path)
    (start : Z) (end_ : option Z) (prs : deck) (ss : list slide) :
  σ !! input_file = Some (PptxFile prs) →
  slides prs = Ok ss →
  1 ≤ Z.of_nat (length ss) →
  let total := Z.of_nat (length ss) in
  let last := default total end_ in
  (start < 1 ∨ total < start →
   extract_slides input_file output_file start end_ σ
   = (raise ValueError
        ("Start slide " +:+ str_int start +:+ " is out of range (1-"
           +:+ str_int total +:+ ")"), σ))
  ∧ (1 ≤ start ≤ total → last < start ∨ total < last →
     extract_slides input_file output_file start end_ σ
     = (raise ValueError
          ("End slide " +:+ str_int last +:+ " is out of range ("
             +:+ str_int start +:+ "-" +:+ str_int total +:+ ")"), σ))
  ∧ (1 ≤ start ≤ last ∧ last ≤ total →
     ∃ d,
       extract_slides input_file output_file start end_ σ
       = (Ok output_file, <[output_file := PptxFile d]> σ)
       ∧ slides d
         = Ok (take (Z.to_nat (last - start + 1))
                 (drop (Z.to_nat (start - 1)) ss))).
Proof.
  intros Hfile Hslides HT total last.
  assert (extract_slides input_file output_file start end_ σ
            = (if (start <? 1) || (total <? start) then
                 st_raise ValueError
                   ("Start slide " +:+ str_int start
                      +:+ " is out of range (1-" +:+ str_int total +:+ ")")
               else if (last <? start) || (total <? last) then
                 st_raise ValueError
                   ("End slide " +:+ str_int last +:+ " is out of range ("
                      +:+ str_int start +:+ "-" +:+ str_int total +:+ ")")
               else
                 new_prs ← Presentation input_file;
                 new_prs ← lift (retain_slides
                                   (list_to_set (range (start - 1) last))
                                   new_prs);
                 mkdir (parent output_file);;
                 save new_prs output_file;;
                 mret output_file) σ) as Hbody.
  { unfold extract_slides.
    rewrite (st_bind_ok _ _ _ _ _ (path_exists_ok _ _ _ Hfile)). simpl.
    rewrite (st_bind_ok _ _ _ _ _ (Presentation_ok _ _ _ Hfile)).
    rewrite (st_bind_ok (lift (len_slides prs)) _ σ (length ss) σ).
    2:{ unfold lift. rewrite (len_slides_spec _ _ Hslides).
        by rewrite (slides_length _ _ Hslides). }
    fold total. destruct (total =? 0) eqn:E0; [apply Z.eqb_eq in E0; lia|].
    done. }
  rewrite Hbody. clear Hbody.
  split; [|split].
  - intros Hstart.
    assert ((start <? 1) || (total <? start) = true) as -> by lia. done.
  - intros Hstart Hlast.
    assert ((start <? 1) || (total <? start) = false) as -> by lia.
    assert ((last <? start) || (total <? last) = true) as -> by lia. done.
  - intros [Hstart Hlast].
    assert ((start <? 1) || (total <? start) = false) as -> by lia.
    assert ((last <? start) || (total <? last) = false) as -> by lia.
    rewrite (st_bind_ok _ _ _ _ _ (Presentation_ok _ _ _ Hfile)).
    destruct (retain_slides_spec prs (list_to_set (range (start - 1) last))
                ss Hslides) as (d & Hret & _ & Hd & _).
    unfold lift. rewrite (st_bind_ok _ _ σ d σ) by by rewrite Hret.
    exists d. split; [done|]. rewrite Hd. f_equal.
    replace (start - 1) with (Z.of_nat (Z.to_nat (start - 1))) at 1 by lia.
    replace last with (Z.of_nat (Z.to_nat last)) at 1 by lia.
    rewrite kept_range by lia. f_equal. lia.
Qed.

Lemma extract_slides_validates_witness :
  let σ := disk (deck3 office_master) in
  let total := 3 in
  let last := default total (Some 5) in
  (2 < 1 ∨ total < 2 →
   extract_slides deck_path merged_path 2 (Some 5) σ
   = (raise ValueError
        ("Start slide " +:+ str_int 2 +:+ " is out of range (1-"
           +:+ str_int total +:+ ")"), σ))
  ∧ (1 ≤ 2 ≤ total → last < 2 ∨ total < last →
     extract_slides deck_path merged_path 2 (Some 5) σ
     = (raise ValueError
          ("End slide " +:+ str_int last +:+ " is out of range ("
             +:+ str_int 2 +:+ "-" +:+ str_int total +:+ ")"), σ))
  ∧ (1 ≤ 2 ≤ last ∧ last ≤ total →
     ∃ d,
       extract_slides deck_path merged_path 2 (Some 5) σ
       = (Ok merged_path, <[merged_path := PptxFile d]> σ)
       ∧ slides d
         = Ok (take (Z.to_nat (last - 2 + 1))
                 (drop (Z.to_nat (2 - 1)) [slide_a; slide_b; slide_c]))).
Proof.
  apply (extract_slides_validates (disk (deck3 office_master)) deck_path
           merged_path 2 (Some 5) (deck3 office_master)
           [slide_a; slide_b; slide_c]).
  - vm_compute. reflexivity.
  - vm_compute. reflexivity.
  - simpl. lia.
Defined.

(** C4 as it was claimed fails on a deck without slides: there every
    start is above the slide count, and the error is the one of the empty
    deck, which names no bound. *)
Lemma extract_slides_empty_deck_message :
  slides empty_deck = Ok []
  ∧ Z.of_nat (length (sldIdLst empty_deck)) < 1
  ∧ extract_slides deck_path merged_path 1 None (disk empty_deck)
    = (raise ValueError "No slides found in in/deck.pptx", disk empty_deck)
  ∧ extract_slides deck_path merged_path 1 None (disk empty_deck)
    ≠ (raise ValueError "Start slide 1 is out of range (1-0)",
       disk empty_deck).
Proof.
  assert (extract_slides deck_path merged_path 1 None (disk empty_deck)
          = (raise ValueError "No slides found in in/deck.pptx",
             disk empty_deck)) as Hrun by reflexivity.
  split; [vm_compute; reflexivity|].
  split; [vm_compute; reflexivity|].
  split; [exact Hrun|].
  rewrite Hrun. intros Heq. apply (f_equal fst) in Heq. discriminate Heq.
Qed.

(** ** The [extract] command *)

Section extract_command.
Variables (cwd input_file output : Path).

(** A range without a dash is reported before any file is opened: the
    outcome is the same on every file system, and the files stay as
    they are. *)
Lemma extract_without_dash (slide_range : string) (σ : fs)
    (lines : list (bool * string)) :
  contains_char "-" slide_range = false →
  extract cwd input_file output slide_range (σ, lines)
  = (raise SystemExit "1",
     (σ, lines ++ [(true,
            "Error: Range must be in format 'start-end' or 'start-'")])).
Proof.
  intros Hdash. unfold extract, st_try_except2. by rewrite Hdash.
Qed.

(** A start that is no integer is reported as an invalid range format,
    also before any file is opened. *)
Lemma extract_bad_start (slide_range : string) (σ : fs)
    (lines : list (bool * string)) (a : string) (rest : list string)
    (e : exn) :
  contains_char "-" slide_range = true →
  split_once "-" slide_range = a :: rest →
  int a = Raise e → exn_cls e = ValueError →
  extract cwd input_file output slide_range (σ, lines)
  = (raise SystemExit "1",
     (σ, lines ++ [(true,
            "Error: Invalid range format - " +:+ exn_msg e)])).
Proof.
  intros Hdash Hsplit Hint Hcls. unfold extract, st_try_except2.
  rewrite Hdash, Hsplit. simpl. unfold lift at 1.
  unfold mbind, ST_bind, lift, mret, ST_ret, getitem. simpl.
  rewrite Hint. simpl. by rewrite Hcls.
Qed.
End extract_command.

(** C5, evaluated. On a deck of three slides the malformed range
    ["abc-5"] and the well-formed but out-of-range ["0-3"] are both
    reported under the heading "Invalid range format": the handler for
    [ValueError] of the command also receives the [ValueError] that
    [extract_slides] raises after it opened the document. A range without
    dash has a message of its own, and a file that is no presentation is
    reported without that heading. *)
Theorem extract_reports_out_of_range_as_invalid_format :
  let w := (disk (deck3 office_master), []) in
  (extract ["/"] deck_path merged_path "abc-5" w).2.2
  = [(true, "Error: Invalid range format - "
              +:+ "invalid literal for int() with base 10: 'abc'")]
  ∧ (extract ["/"] deck_path merged_path "0-3" w).2.2
    = [(false, "Extracting slides 0 to 3 from in/deck.pptx...");
       (true, "Error: Invalid range format - "
                +:+ "Start slide 0 is out of range (1-3)")]
  ∧ (extract ["/"] deck_path merged_path "2-9" w).2.2
    = [(false, "Extracting slides 2 to 9 from in/deck.pptx...");
       (true, "Error: Invalid range format - "
                +:+ "End slide 9 is out of range (2-3)")]
  ∧ (extract ["/"] deck_path merged_path "5" w).2.2
    = [(true, "Error: Range must be in format 'start-end' or 'start-'")]
  ∧ (extract ["/"] deck_path merged_path "1-2"
       ({[ deck_path := OtherFile "text" ]}, [])).2.2
    = [(false, "Extracting slides 1 to 2 from in/deck.pptx...");
       (true, "Error: Package not found")].
Proof.
  repeat split; vm_compute; reflexivity.
Qed.

(** ** Verifying *)

Section verifying.
Lemma inspect_slide_spec idx s : inspect_slide idx s = Ok (inspected idx s).
Proof.
  unfold inspect_slide, inspected, st_try_except, shapes.
  destruct (spTree s) as [sp|]; simpl; [|done].
  unfold mbind, ST_bind, lift. simpl.
  destruct (title sp); simpl; by rewrite ?bool_decide_eq_true_2 by eauto.
Qed.

(** The loop over the slides inspects every slide, whatever happened at
    the slides before. *)
Lemma inspect_loop ss :
  ∀ a r,
  st_for (λ '(idx, s),
            slide_info ← lift (inspect_slide idx s);
            append_detail slide_info)
    (zip (seq a (length ss)) ss) r
  = (Ok (),
     mk_report (valid r) (error r) (n_slides r)
       (slide_details r ++ imap (λ i s, inspected (a + i) s) ss)
       (n_layouts r) (n_masters r)).
Proof.
  induction ss as [|s ss IH]; intros a r; simpl.
  { rewrite app_nil_r. by destruct r. }
  unfold mbind at 1, ST_bind at 1.
  unfold mbind at 1, ST_bind at 1, lift at 1.
  rewrite inspect_slide_spec. simpl. rewrite IH. simpl.
  rewrite <- app_assoc. simpl. rewrite Nat.add_0_r.
  do 4 f_equal. apply imap_ext. intros i x _. simpl. f_equal. lia.
Qed.
End verifying.

(** C9, as far as it holds. [verify_presentation] never raises. When
    the file is missing or does not open, the report is invalid, carries
    the message, and has no counts and no slide details. When the file
    opens: if listing its slides raises, the report is the same kind of
    fatal report; if reading its layouts raises, the report is invalid,
    carries the message and the slide count read before, and has no slide
    details; otherwise the report is valid, has the three counts, and has
    one record per slide in order, numbered from 1, where a slide whose
    inspection raised has the message in its error field and the slides
    after it are inspected all the same. *)
Theorem verify_presentation_report (σ : fs) (input_file : Path) :
  ∃ r,
    verify_presentation input_file σ = Ok r
    ∧ match σ !! input_file with
      | None =>
          r = fatal_report ("File not found: " +:+ str_path input_file) 0
      | Some (OtherFile _) => r = fatal_report "Package not found" 0
      | Some (PptxFile prs) =>
          match slides prs, slide_layouts prs with
          | Raise e, _ => r = fatal_report (exn_msg e) 0
          | Ok ss, Raise e => r = fatal_report (exn_msg e) (length ss)
          | Ok ss, Ok layouts =>
              r = mk_report true None (length ss)
                    (imap (λ i s, inspected (S i) s) ss)
                    (length layouts) (length (slide_masters prs))
          end
      end.
Proof.
  unfold verify_presentation.
  destruct (σ !! input_file) as [[prs|bytes]|] eqn:Hfile.
  - rewrite bool_decide_eq_true_2 by eauto. simpl.
    rewrite (Presentation_ok _ _ _ Hfile). simpl.
    unfold verify_body, st_try_except, len_slides.
    unfold mbind at 1, ST_bind at 1, lift at 1.
    unfold mbind at 1, ST_bind at 1, lift at 1.
    destruct (slides prs) as [ss|e] eqn:Hss; simpl.
    2:{ rewrite (slides_raise _ _ Hss). simpl. eauto. }
    unfold mbind at 1, ST_bind at 1, set_slides at 1.
    unfold mbind at 1, ST_bind at 1, lift at 1.
    destruct (slide_layouts prs) as [layouts|e] eqn:Hlay; simpl.
    2:{ rewrite (slide_layouts_raise _ _ Hlay). simpl. eauto. }
    unfold mbind, ST_bind, lift. simpl. rewrite inspect_loop. simpl. eauto.
  - rewrite bool_decide_eq_true_2 by eauto. simpl.
    unfold Presentation. rewrite Hfile. simpl. eauto.
  - rewrite bool_decide_eq_false_2 by (by intros [? ?]). simpl. eauto.
Qed.

(** C9 as it was claimed fails: a document that opens, with two sound
    slides, but whose presentation part lists no slide master, is
    reported invalid; none of its slides is inspected, and the slide
    count read before the failure stays in the report. *)
Lemma verify_presentation_fatal_after_open :
  Presentation deck_path (disk masterless_deck)
  = (Ok masterless_deck, disk masterless_deck)
  ∧ inspect_slide 1 slide_a = Ok (mk_slide_info 1 1 true None)
  ∧ inspect_slide 2 slide_b = Ok (mk_slide_info 2 2 false None)
  ∧ verify_presentation deck_path (disk masterless_deck)
    = Ok (mk_report false (Some "slide master index out of range") 2 [] 0 0).
Proof.
  repeat split; vm_compute; reflexivity.
Qed.

(** * Further properties of [core.py] *)

(** ** Retention at its two ends *)


(** X1. When every position of the slide list is to be kept, the removal
    steps change nothing: the presentation comes back as it was. *)
Theorem retain_slides_keep_all (prs : deck) (keep : gset Z)
    (ss : list slide) :
  slides prs = Ok ss →
  (∀ i, (i < length ss)%nat → Z.of_nat i ∈ keep) →
  retain_slides keep prs = Ok prs.
Proof.
  intros Hss Hall. unfold retain_slides.
  rewrite (len_slides_spec _ _ Hss). simpl.
  rewrite <- (slides_length _ _ Hss).
  assert (filter (λ i : nat, Z.of_nat i ∉ keep) (range_len (length ss)) = [])
    as ->; [|done].
  unfold range_len. apply elem_of_nil_inv. intros i.
  rewrite list_elem_of_filter, elem_of_seq. intros [Hi ?].
  apply Hi, Hall. lia.
Qed.

Lemma retain_slides_keep_all_witness :
  retain_slides {[0; 1; 2]} (deck3 office_master) = Ok (deck3 office_master).
Proof.
  apply (retain_slides_keep_all (deck3 office_master) {[0; 1; 2]}
           [slide_a; slide_b; slide_c]).
  - vm_compute. reflexivity.
  - intros i Hi. simpl in Hi.
    assert (i = 0 ∨ i = 1 ∨ i = 2)%nat as [->|[->| ->]] by lia;
      set_solver.
Defined.



(** ** What a split leaves alone, and when it refuses *)

Lemma path_exists_missing (σ : fs) p :
  σ !! p = None → path_exists p σ = (Ok false, σ).
Proof.
  unfold path_exists. intros ->.
  by rewrite bool_decide_eq_false_2 by (by intros [? ?]).
Qed.

Lemma parent_joinpath (p : Path) s : parent (joinpath p s) = p.
Proof. unfold parent, joinpath. apply removelast_last. Qed.

Lemma split_file_inj input_file output_dir (C T : Z) (k k' : nat) :
  1 ≤ C →
  split_file input_file output_dir C T k
  = split_file input_file output_dir C T k' →
  k = k'.
Proof.
  intros HC Heq. unfold split_file in Heq.
  apply (out_inj input_file output_dir C T) in Heq; nia.
Qed.

(** X3. A split writes each chunk to a file of its own, directly in the
    output directory: the returned paths are pairwise different, none is
    the input file, the input file is as before, and so is every file
    that is not returned. *)
Theorem split_presentation_frame (σ : fs) (input_file output_dir : Path)
    (chunk_size : option Z) (prs : deck) (ss : list slide) :
  σ !! input_file = Some (PptxFile prs) →
  slides prs = Ok ss →
  1 ≤ Z.of_nat (length ss) →
  1 ≤ default 1 chunk_size →
  ∃ (files : list Path) (σ' : fs),
    split_presentation input_file output_dir chunk_size σ = (Ok files, σ')
    ∧ NoDup files
    ∧ (input_file ∉ files)
    ∧ Forall (λ f, parent f = output_dir) files
    ∧ σ' !! input_file = Some (PptxFile prs)
    ∧ ∀ p, p ∉ files → σ' !! p = σ !! p.
Proof.
  intros Hfile Hslides HT HC.
  destruct (split_presentation_spec σ input_file output_dir prs ss chunk_size
              Hfile Hslides HT HC) as (σ' & Hrun & Hin & _ & Hframe).
  eexists _, σ'. split; [exact Hrun|]. repeat split; try done.
  - apply NoDup_fmap_2_strong; [|apply NoDup_seq].
    intros k k' _ _ Heq. by eapply split_file_inj.
  - intros [k [Hk _]]%list_elem_of_fmap. symmetry in Hk.
    by apply out_not_input in Hk.
  - apply Forall_fmap, Forall_forall. intros k _. simpl.
    apply parent_joinpath.
Qed.

Lemma split_presentation_frame_witness :
  ∃ (files : list Path) (σ' : fs),
    split_presentation deck_path out_dir (Some 2) (disk (deck3 office_master))
    = (Ok files, σ')
    ∧ NoDup files
    ∧ (deck_path ∉ files)
    ∧ Forall (λ f, parent f = out_dir) files
    ∧ σ' !! deck_path = Some (PptxFile (deck3 office_master))
    ∧ ∀ p, p ∉ files → σ' !! p = disk (deck3 office_master) !! p.
Proof.
  apply (split_presentation_frame (disk (deck3 office_master)) deck_path
           out_dir (Some 2) (deck3 office_master)
           [slide_a; slide_b; slide_c]).
  - vm_compute. reflexivity.
  - vm_compute. reflexivity.
  - simpl. lia.
  - simpl. lia.
Defined.

(** X4. A split of a presentation without slides is refused with "No
    slides found", whatever the chunk size is, also a chunk size below
    1; a split of a presentation with slides and a chunk size below 1 is
    refused with a message that shows the chunk size. Nothing is written
    in either case. *)
Theorem split_presentation_rejects (σ : fs) (input_file output_dir : Path)
    (chunk_size : option Z) (prs : deck) (ss : list slide) :
  σ !! input_file = Some (PptxFile prs) →
  slides prs = Ok ss →
  (ss = [] →
   split_presentation input_file output_dir chunk_size σ
   = (raise ValueError ("No slides found in " +:+ str_path input_file), σ))
  ∧ (ss ≠ [] → ∀ c, chunk_size = Some c → c < 1 →
     split_presentation input_file output_dir chunk_size σ
     = (raise ValueError
          ("Chunk size must be at least 1, got " +:+ str_int c), σ)).
Proof.
  intros Hfile Hslides.
  assert (∀ k,
            split_presentation input_file output_dir chunk_size σ
            = (if Z.of_nat (length ss) =? 0 then
                 st_raise ValueError
                   ("No slides found in " +:+ str_path input_file)
               else k) σ
            ∨ Z.of_nat (length ss) ≠ 0) as Hempty.
  { intros k. destruct ss; [left|right; simpl; lia].
    unfold split_presentation.
    rewrite (st_bind_ok _ _ _ _ _ (path_exists_ok _ _ _ Hfile)). simpl.
    unfold mkdir at 1. rewrite (st_bind_ok _ _ σ () σ eq_refl).
    rewrite (st_bind_ok _ _ _ _ _ (Presentation_ok _ _ _ Hfile)).
    rewrite (st_bind_ok (lift (len_slides prs)) _ σ 0%nat σ); [done|].
    unfold lift. rewrite (len_slides_spec _ _ Hslides).
    by rewrite <- (slides_length _ _ Hslides). }
  split.
  - intros ->. destruct (Hempty (mret [])) as [->|?]; done.
  - intros Hne c -> Hc. unfold split_presentation.
    rewrite (st_bind_ok _ _ _ _ _ (path_exists_ok _ _ _ Hfile)). simpl.
    unfold mkdir at 1. rewrite (st_bind_ok _ _ σ () σ eq_refl).
    rewrite (st_bind_ok _ _ _ _ _ (Presentation_ok _ _ _ Hfile)).
    rewrite (st_bind_ok (lift (len_slides prs)) _ σ (length ss) σ).
    2:{ unfold lift. rewrite (len_slides_spec _ _ Hslides).
        by rewrite (slides_length _ _ Hslides). }
    destruct ss; [done|]. simpl length.
    destruct (Z.of_nat (S (length ss)) =? 0) eqn:E0;
      [apply Z.eqb_eq in E0; lia|].
    assert ((c <? 1) = true) as -> by lia. done.
Qed.

Lemma split_presentation_rejects_witness :
  ([slide_a; slide_b; slide_c] = [] →
   split_presentation deck_path out_dir (Some 0) (disk (deck3 office_master))
   = (raise ValueError ("No slides found in " +:+ str_path deck_path),
      disk (deck3 office_master)))
  ∧ ([slide_a; slide_b; slide_c] ≠ [] → ∀ c, Some 0 = Some c → c < 1 →
     split_presentation deck_path out_dir (Some 0)
       (disk (deck3 office_master))
     = (raise ValueError
          ("Chunk size must be at least 1, got " +:+ str_int c),
        disk (deck3 office_master))).
Proof.
  apply (split_presentation_rejects (disk (deck3 office_master)) deck_path
           out_dir (Some 0) (deck3 office_master)
           [slide_a; slide_b; slide_c]).
  - vm_compute. reflexivity.
  - vm_compute. reflexivity.
Defined.


(** ** A merge, read as a function of the file system *)

Section st_state.
Context {S A B : Type}.

Lemma st_fold_app (body : A → B → ST S A) xs ys acc s :
  st_fold body (xs ++ ys) acc s
  = (acc' ← st_fold body xs acc; st_fold body ys acc') s.
Proof.
  revert acc s. induction xs as [|x xs IH]; intros acc s; simpl; [done|].
  unfold mbind, ST_bind. destruct (body acc x s) as [[a|e] s']; [|done].
  apply IH.
Qed.
End st_state.

Lemma merge_file_state (m : deck) (file : Path) (σ : fs) :
  (merge_file m file σ).2 = σ.
Proof.
  unfold merge_file, Presentation, mbind, ST_bind, lift.
  destruct (σ !! file) as [[prs|?]|]; simpl; [|done..].
  destruct (slides prs) as [ss|]; simpl; [|done].
  by destruct (for_fold merge_slide ss m).
Qed.

Lemma merge_files_state (files : list Path) : ∀ (m : deck) (σ : fs),
  (st_fold merge_file files m σ).2 = σ.
Proof.
  induction files as [|file files IH]; intros m σ; simpl; [done|].
  unfold mbind, ST_bind. pose proof (merge_file_state m file σ) as Hst.
  destruct (merge_file m file σ) as [[m'|e] σ']; simpl in *; subst; [|done].
  apply IH.
Qed.

(** A merge step sees of the file system only its own source file. *)
Lemma merge_file_agree (m : deck) (file : Path) (σ σ' : fs) :
  σ !! file = σ' !! file → (merge_file m file σ).1 = (merge_file m file σ').1.
Proof.
  intros Heq. unfold merge_file, Presentation, mbind, ST_bind, lift.
  rewrite <- Heq. destruct (σ !! file) as [[prs|?]|]; simpl; [|done..].
  destruct (slides prs) as [ss|]; simpl; [|done].
  by destruct (for_fold merge_slide ss m).
Qed.

Lemma merge_files_agree (files : list Path) : ∀ (m : deck) (σ σ' : fs),
  Forall (λ file, σ !! file = σ' !! file) files →
  (st_fold merge_file files m σ).1 = (st_fold merge_file files m σ').1.
Proof.
  induction files as [|file files IH]; intros m σ σ' Hall; simpl; [done|].
  apply Forall_cons in Hall as [Hfile Hall].
  unfold mbind, ST_bind.
  pose proof (merge_file_agree m file σ σ' Hfile) as H1.
  pose proof (merge_file_state m file σ) as H2.
  pose proof (merge_file_state m file σ') as H3.
  destruct (merge_file m file σ) as [r1 σ1],
           (merge_file m file σ') as [r2 σ2]; simpl in *; subst.
  destruct r2; [|done]. by apply IH.
Qed.

Lemma exists_loop_first_missing (σ : fs) (files : list Path) :
  st_for (λ file,
            found ← path_exists file;
            if negb found then
              st_raise FileNotFoundError
                ("Input file not found: " +:+ str_path file)
            else mret ())
    files σ
  = match first_missing σ files with
    | Some f =>
        (raise FileNotFoundError ("Input file not found: " +:+ str_path f), σ)
    | None => (Ok (), σ)
    end.
Proof.
  unfold first_missing.
  induction files as [|file files IH]; [done|]. simpl.
  unfold mbind at 1, ST_bind at 1.
  unfold mbind at 1, ST_bind at 1, path_exists at 1.
  destruct (bool_decide (is_Some (σ !! file))); simpl; [|done].
  apply IH.
Qed.

(** The merge returns the output path and saves the merged deck, or
    raises and leaves the file system as it is. *)
Lemma merge_presentations_merged_deck (σ : fs) (files : list Path)
    (output_file : Path) :
  merge_presentations files output_file σ
  = match merged_deck σ files with
    | Ok merged => (Ok output_file, <[output_file := PptxFile merged]> σ)
    | Raise e => (Raise e, σ)
    end.
Proof.
  unfold merge_presentations, merged_deck.
  destruct files as [|first remaining]; [done|].
  unfold mbind at 1, ST_bind at 1. rewrite exists_loop_first_missing.
  destruct (first_missing σ (first :: remaining)); [done|].
  unfold mbind at 1, ST_bind at 1, Presentation at 1.
  destruct (σ !! first) as [[base|?]|]; [|done..].
  unfold mbind at 1, ST_bind at 1.
  pose proof (merge_files_state remaining base σ) as Hst.
  destruct (st_fold merge_file remaining base σ) as [[m|e] σ'];
    simpl in *; subst; done.
Qed.

(** X6. A merge saves the merged deck at the output path and returns
    that path, or it raises and writes nothing: no other outcome exists,
    for every file system and every list of input files. *)
Theorem merge_presentations_all_or_nothing (σ : fs) (input_files : list Path)
    (output_file : Path) :
  match merge_presentations input_files output_file σ with
  | (Raise _, σ') => σ' = σ
  | (Ok p, σ') =>
      p = output_file
      ∧ ∃ merged, σ' = <[output_file := PptxFile merged]> σ
  end.
Proof.
  rewrite merge_presentations_merged_deck.
  destruct (merged_deck σ input_files); eauto.
Qed.

(** X7. A merge checks every input file before it opens any: when the
    files before [file] in the list exist and [file] does not, the merge
    raises [FileNotFoundError] with the path of [file] in the message and
    writes nothing, whatever the other files contain. *)
Theorem merge_presentations_missing_file (σ : fs) (before after : list Path)
    (file output_file : Path) :
  Forall (λ p, is_Some (σ !! p)) before →
  σ !! file = None →
  merge_presentations (before ++ file :: after) output_file σ
  = (raise FileNotFoundError ("Input file not found: " +:+ str_path file), σ).
Proof.
  intros Hbefore Hfile. rewrite merge_presentations_merged_deck.
  assert (first_missing σ (before ++ file :: after) = Some file) as Hmiss.
  { unfold first_missing.
    induction Hbefore as [|p before Hp _ IH]; simpl.
    - rewrite Hfile. by rewrite bool_decide_eq_false_2 by (by intros [? ?]).
    - by rewrite bool_decide_eq_true_2 by done. }
  unfold merged_deck.
  destruct (before ++ file :: after) eqn:E; [by destruct before|].
  by rewrite Hmiss.
Qed.

Lemma merge_presentations_missing_file_witness :
  merge_presentations ([first_path] ++ ["missing.pptx"] :: [second_path])
    merged_path two_files
  = (raise FileNotFoundError
       ("Input file not found: " +:+ str_path ["missing.pptx"]), two_files).
Proof.
  apply (merge_presentations_missing_file two_files [first_path]
           [second_path] ["missing.pptx"] merged_path).
  - repeat constructor. vm_compute. eauto.
  - vm_compute. reflexivity.
Defined.

(** ** Merges that add nothing, that cannot add, and that add in two
    steps *)

Lemma first_missing_none (σ : fs) (files : list Path) :
  Forall (λ p, is_Some (σ !! p)) files → first_missing σ files = None.
Proof.
  unfold first_missing. induction 1 as [|p files Hp _ IH]; [done|]. simpl.
  by rewrite bool_decide_eq_true_2 by done.
Qed.

Lemma source_of_exists (σ : fs) (files : list Path) sss :
  Forall2 (source_of σ) files sss → Forall (λ p, is_Some (σ !! p)) files.
Proof.
  induction 1 as [|? ? ? ? (prs & Hf & _)]; constructor; eauto.
Qed.

(** X8. Later sources without slides add nothing: when every file after
    the first opens as a presentation with no slides, the merge saves the
    first presentation unchanged, whatever its layouts and slides are. *)
Theorem merge_presentations_empty_sources (σ : fs) (first : Path)
    (remaining : list Path) (output_file : Path) (base : deck) :
  σ !! first = Some (PptxFile base) →
  Forall (λ file, source_of σ file []) remaining →
  merge_presentations (first :: remaining) output_file σ
  = (Ok output_file, <[output_file := PptxFile base]> σ).
Proof.
  intros Hfirst Hempty. rewrite merge_presentations_merged_deck.
  unfold merged_deck. rewrite first_missing_none, Hfirst.
  - assert (st_fold merge_file remaining base σ = (Ok base, σ)) as ->; [|done].
    induction Hempty as [|file files (prs & Hf & Hs & _) _ IH]; [done|].
    simpl. rewrite (st_bind_ok _ _ σ base σ); [done|].
    unfold merge_file.
    rewrite (st_bind_ok _ _ _ _ _ (Presentation_ok _ _ _ Hf)).
    unfold lift at 1. rewrite (st_bind_ok _ _ σ [] σ) by by rewrite Hs.
    done.
  - constructor; [eauto|].
    eapply Forall_impl; [exact Hempty|]. intros p (prs & Hf & _). eauto.
Qed.

Lemma merge_presentations_empty_sources_witness :
  merge_presentations
    (deck_path :: [["e.pptx"]]) merged_path
    (<[ ["e.pptx"] := PptxFile empty_deck ]> (disk masterless_deck))
  = (Ok merged_path,
     <[merged_path := PptxFile masterless_deck]>
       (<[ ["e.pptx"] := PptxFile empty_deck ]> (disk masterless_deck))).
Proof.
  apply (merge_presentations_empty_sources
           (<[ ["e.pptx"] := PptxFile empty_deck ]> (disk masterless_deck))
           deck_path [["e.pptx"]] merged_path masterless_deck).
  - vm_compute. reflexivity.
  - repeat constructor. exists empty_deck.
    split; [vm_compute; reflexivity|]. split; [reflexivity|constructor].
Defined.

Lemma merge_slide_no_layout (m : deck) (src : slide) (e : exn) :
  blank_layout_of m = Raise e → merge_slide m src = Raise e.
Proof. unfold merge_slide. by intros ->. Qed.

(** X9. The fallback to the first layout has no fallback of its own:
    when the first presentation lists no slide master, or its first
    master has no layout, and some later source has a slide, the merge
    raises [IndexError] and writes nothing. *)
Theorem merge_presentations_needs_layout (σ : fs) (first : Path)
    (remaining : list Path) (output_file : Path) (base : deck)
    (sss : list (list slide)) :
  σ !! first = Some (PptxFile base) →
  (slide_masters base = []
   ∨ ∃ m ms, slide_masters base = m :: ms ∧ master_layouts m = []) →
  Forall2 (source_of σ) remaining sss →
  concat sss ≠ [] →
  ∃ e, exn_cls e = IndexError
       ∧ merge_presentations (first :: remaining) output_file σ = (Raise e, σ).
Proof.
  intros Hfirst Hlay Hsrc Hne.
  assert (∃ e, exn_cls e = IndexError ∧ blank_layout_of base = Raise e)
    as (e & He & Hblank).
  { unfold blank_layout_of, slide_layouts, try_except.
    destruct Hlay as [->|(m & ms & -> & Hm)]; simpl.
    - eexists. split; [|reflexivity]. reflexivity.
    - rewrite Hm. simpl. eexists. split; [|reflexivity]. reflexivity. }
  exists e. split; [done|].
  rewrite merge_presentations_merged_deck. unfold merged_deck.
  rewrite first_missing_none, Hfirst.
  2:{ constructor; [eauto|]. by eapply source_of_exists. }
  assert ((st_fold merge_file remaining base σ).1 = Raise e) as ->; [|done].
  induction Hsrc as [|file srcs files sss' (prs & Hf & Hs & _) _ IH];
    [done|].
  simpl. unfold mbind, ST_bind. unfold merge_file.
  rewrite (st_bind_ok _ _ _ _ _ (Presentation_ok _ _ _ Hf)).
  unfold lift at 1. rewrite (st_bind_ok _ _ σ srcs σ) by by rewrite Hs.
  unfold lift. destruct srcs as [|src srcs]; simpl.
  - apply IH. by simpl in Hne.
  - by rewrite (merge_slide_no_layout base src e Hblank).
Qed.

Lemma merge_presentations_needs_layout_witness :
  ∃ e, exn_cls e = IndexError
       ∧ merge_presentations (deck_path :: [["b.pptx"]]) merged_path
           (<[ ["b.pptx"] := PptxFile deck2 ]> (disk masterless_deck))
         = (Raise e,
            <[ ["b.pptx"] := PptxFile deck2 ]> (disk masterless_deck)).
Proof.
  apply (merge_presentations_needs_layout
           (<[ ["b.pptx"] := PptxFile deck2 ]> (disk masterless_deck))
           deck_path [["b.pptx"]] merged_path masterless_deck
           [[slide_b; slide_c]]).
  - vm_compute. reflexivity.
  - left. reflexivity.
  - repeat constructor. exists deck2.
    split; [vm_compute; reflexivity|].
    split; [vm_compute; reflexivity|].
    repeat constructor; simpl; eauto.
  - discriminate.
Defined.

Lemma first_missing_app (σ : fs) (xs ys : list Path) :
  first_missing σ xs = None →
  first_missing σ (xs ++ ys) = first_missing σ ys.
Proof.
  unfold first_missing. induction xs as [|x xs IH]; [done|]. simpl.
  destruct (negb _); [done|]. apply IH.
Qed.

Lemma first_missing_agree (σ σ' : fs) (files : list Path) :
  Forall (λ p, σ !! p = σ' !! p) files →
  first_missing σ files = first_missing σ' files.
Proof.
  unfold first_missing. induction 1 as [|p files Hp _ IH]; [done|]. simpl.
  by rewrite Hp, IH.
Qed.

(** X10. Merging in two steps is merging at once: when a merge of
    [first :: files1] into [tmp] succeeded, merging [tmp :: files2] gives
    the same outcome (the same exception, or the same merged deck at the
    output path) as merging [first :: files1 ++ files2] from the start,
    provided [tmp] is none of [files2]. *)
Theorem merge_presentations_incremental (σ σ1 : fs) (first tmp : Path)
    (files1 files2 : list Path) (output_file : Path) :
  merge_presentations (first :: files1) tmp σ = (Ok tmp, σ1) →
  tmp ∉ files2 →
  (merge_presentations (tmp :: files2) output_file σ1).1
  = (merge_presentations (first :: files1 ++ files2) output_file σ).1
  ∧ (∀ p,
       (merge_presentations (first :: files1 ++ files2) output_file σ).1
       = Ok p →
     (merge_presentations (tmp :: files2) output_file σ1).2 !! output_file
     = (merge_presentations (first :: files1 ++ files2) output_file σ).2
         !! output_file).
Proof.
  intros Hstep Htmp.
  rewrite merge_presentations_merged_deck in Hstep.
  destruct (merged_deck σ (first :: files1)) as [m1|] eqn:Hm1; [|done].
  injection Hstep as <-.
  assert (merged_deck (<[tmp := PptxFile m1]> σ) (tmp :: files2)
          = merged_deck σ (first :: files1 ++ files2)) as Heq.
  { unfold merged_deck in *.
    destruct (first_missing σ (first :: files1)) eqn:Hmiss1; [done|].
    destruct (σ !! first) as [[base|?]|] eqn:Hfirst; [|done..].
    assert (Forall (λ p, σ !! p = <[tmp := PptxFile m1]> σ !! p) files2)
      as Hagree.
    { apply Forall_forall. intros p Hp.
      rewrite lookup_insert_ne; [done|]. by intros ->. }
    change (first :: files1 ++ files2) with ((first :: files1) ++ files2).
    rewrite (first_missing_app σ (first :: files1) files2 Hmiss1).
    assert (first_missing (<[tmp := PptxFile m1]> σ) (tmp :: files2)
            = first_missing σ files2) as ->.
    { unfold first_missing. simpl. rewrite lookup_insert_eq.
      rewrite bool_decide_eq_true_2 by eauto. simpl.
      symmetry. by apply first_missing_agree. }
    destruct (first_missing σ files2); [done|].
    rewrite lookup_insert_eq, st_fold_app.
    unfold mbind, ST_bind.
    pose proof (merge_files_state files1 base σ) as Hst.
    destruct (st_fold merge_file files1 base σ) as [r σ'].
    simpl in *. subst. symmetry. by apply merge_files_agree. }
  rewrite !merge_presentations_merged_deck, Heq.
  destruct (merged_deck σ (first :: files1 ++ files2)); simpl.
  - split; [done|]. intros _ _. by rewrite !lookup_insert_eq.
  - split; [done|]. intros p Hp. discriminate.
Qed.

Lemma merge_presentations_incremental_witness :
  let σ1 := <[ ["t.pptx"] := PptxFile (deck3 office_master) ]> two_files in
  (merge_presentations (["t.pptx"] :: [second_path]) merged_path σ1).1
  = (merge_presentations (first_path :: [] ++ [second_path]) merged_path
       two_files).1
  ∧ (∀ p,
       (merge_presentations (first_path :: [] ++ [second_path]) merged_path
          two_files).1 = Ok p →
     (merge_presentations (["t.pptx"] :: [second_path]) merged_path σ1).2
       !! merged_path
     = (merge_presentations (first_path :: [] ++ [second_path]) merged_path
          two_files).2 !! merged_path).
Proof.
  apply (merge_presentations_incremental two_files
           (<[ ["t.pptx"] := PptxFile (deck3 office_master) ]> two_files)
           first_path ["t.pptx"] [] [second_path] merged_path).
  - reflexivity.
  - apply not_elem_of_cons. split; [discriminate|apply not_elem_of_nil].
Defined.

(** ** Extracts *)

Section extract_facts.
Variables (σ : fs) (input_file output_file : Path) (prs : deck)
          (ss : list slide).
Hypothesis Hfile : σ !! input_file = Some (PptxFile prs).
Hypothesis Hslides : slides prs = Ok ss.

(** After the checks, an extract saves what the removal steps give. *)
Lemma extract_slides_retain (start : Z) (end_ : option Z) (d : deck) :
  1 ≤ start →
  start ≤ default (Z.of_nat (length ss)) end_ →
  default (Z.of_nat (length ss)) end_ ≤ Z.of_nat (length ss) →
  retain_slides
    (list_to_set (range (start - 1) (default (Z.of_nat (length ss)) end_)))
    prs = Ok d →
  extract_slides input_file output_file start end_ σ
  = (Ok output_file, <[output_file := PptxFile d]> σ).
Proof.
  intros Hstart Hlast Htotal Hret. unfold extract_slides.
  rewrite (st_bind_ok _ _ _ _ _ (path_exists_ok _ _ _ Hfile)). simpl.
  rewrite (st_bind_ok _ _ _ _ _ (Presentation_ok _ _ _ Hfile)).
  rewrite (st_bind_ok (lift (len_slides prs)) _ σ (length ss) σ).
  2:{ unfold lift. rewrite (len_slides_spec _ _ Hslides).
      by rewrite (slides_length _ _ Hslides). }
  set (total := Z.of_nat (length ss)) in *.
  set (last := default total end_) in *.
  assert ((total =? 0) = false) as -> by lia.
  assert ((start <? 1) || (total <? start) = false) as -> by lia.
  assert ((last <? start) || (total <? last) = false) as -> by lia.
  rewrite (st_bind_ok _ _ _ _ _ (Presentation_ok _ _ _ Hfile)).
  unfold lift. by rewrite (st_bind_ok _ _ σ d σ) by by rewrite Hret.
Qed.
End extract_facts.

(** X11. An extract saves one presentation at the output path and
    returns that path, or it raises and writes nothing; this holds for
    every file system, path, start and end. *)
Theorem extract_slides_all_or_nothing (σ : fs)
    (input_file output_file : Path) (start : Z) (end_ : option Z) :
  match extract_slides input_file output_file start end_ σ with
  | (Raise _, σ') => σ' = σ
  | (Ok p, σ') =>
      p = output_file ∧ ∃ d, σ' = <[output_file := PptxFile d]> σ
  end.
Proof.
  destruct (σ !! input_file) as [[prs|bytes]|] eqn:Hfile.
  - destruct (slides prs) as [ss|e] eqn:Hslides.
    + destruct (decide (1 ≤ Z.of_nat (length ss))) as [HT|HT].
      * destruct (extract_slides_validates σ input_file output_file start
                    end_ prs ss Hfile Hslides HT) as (H1 & H2 & H3).
        set (total := Z.of_nat (length ss)) in *.
        set (last := default total end_) in *.
        destruct (decide (start < 1 ∨ total < start)) as [Hs|Hs];
          [by rewrite (H1 Hs)|].
        destruct (decide (last < start ∨ total < last)) as [Hl|Hl];
          [by rewrite (H2 ltac:(lia) Hl)|].
        destruct (H3 ltac:(lia)) as (d & -> & _). eauto.
      * unfold extract_slides.
        rewrite (st_bind_ok _ _ _ _ _ (path_exists_ok _ _ _ Hfile)). simpl.
        rewrite (st_bind_ok _ _ _ _ _ (Presentation_ok _ _ _ Hfile)).
        rewrite (st_bind_ok (lift (len_slides prs)) _ σ (length ss) σ).
        2:{ unfold lift. rewrite (len_slides_spec _ _ Hslides).
            by rewrite (slides_length _ _ Hslides). }
        by assert ((Z.of_nat (length ss) =? 0) = true) as -> by lia.
    + unfold extract_slides.
      rewrite (st_bind_ok _ _ _ _ _ (path_exists_ok _ _ _ Hfile)). simpl.
      rewrite (st_bind_ok _ _ _ _ _ (Presentation_ok _ _ _ Hfile)).
      rewrite (st_bind_raise (lift (len_slides prs)) _ σ e σ); [done|].
      unfold lift, len_slides. by rewrite Hslides.
  - unfold extract_slides.
    rewrite (st_bind_ok _ _ _ _ _ (path_exists_ok _ _ _ Hfile)). simpl.
    erewrite st_bind_raise; [done|].
    unfold Presentation. by rewrite Hfile.
  - unfold extract_slides.
    by rewrite (st_bind_ok _ _ _ _ _ (path_exists_missing _ _ Hfile)).
Qed.

(** X12. Extracting from the first slide to the last one, given as the
    slide count or left out, saves the source presentation itself:
    nothing is removed, and every relationship is kept. *)
Theorem extract_slides_whole_deck (σ : fs) (input_file output_file : Path)
    (end_ : option Z) (prs : deck) (ss : list slide) :
  σ !! input_file = Some (PptxFile prs) →
  slides prs = Ok ss →
  1 ≤ Z.of_nat (length ss) →
  end_ = None ∨ end_ = Some (Z.of_nat (length ss)) →
  extract_slides input_file output_file 1 end_ σ
  = (Ok output_file, <[output_file := PptxFile prs]> σ).
Proof.
  intros Hfile Hslides HT Hend.
  assert (default (Z.of_nat (length ss)) end_ = Z.of_nat (length ss)) as Hlast
    by (by destruct Hend as [-> | ->]).
  apply (extract_slides_retain σ input_file output_file prs ss Hfile Hslides);
    rewrite ?Hlast; try lia.
  apply (retain_slides_keep_all prs _ ss Hslides).
  intros i Hi. apply elem_of_list_to_set, list_elem_of_fmap.
  exists i. split; [lia|]. apply elem_of_seq. lia.
Qed.

Lemma extract_slides_whole_deck_witness :
  extract_slides deck_path merged_path 1 None (disk (deck3 office_master))
  = (Ok merged_path,
     <[merged_path := PptxFile (deck3 office_master)]>
       (disk (deck3 office_master))).
Proof.
  apply (extract_slides_whole_deck (disk (deck3 office_master)) deck_path
           merged_path None (deck3 office_master)
           [slide_a; slide_b; slide_c]).
  - vm_compute. reflexivity.
  - vm_compute. reflexivity.
  - simpl. lia.
  - by left.
Defined.

(** X13. Extracting from a slide number to the same number saves a
    presentation with exactly one slide, the slide with that number. *)
Theorem extract_slides_single (σ : fs) (input_file output_file : Path)
    (number : nat) (prs : deck) (ss : list slide) (s : slide) :
  σ !! input_file = Some (PptxFile prs) →
  slides prs = Ok ss →
  ss !! number = Some s →
  ∃ d,
    extract_slides input_file output_file (Z.of_nat number + 1)
      (Some (Z.of_nat number + 1)) σ
    = (Ok output_file, <[output_file := PptxFile d]> σ)
    ∧ slides d = Ok [s].
Proof.
  intros Hfile Hslides Hs.
  pose proof (lookup_lt_Some _ _ _ Hs) as Hlt.
  destruct (extract_slides_validates σ input_file output_file
              (Z.of_nat number + 1) (Some (Z.of_nat number + 1)) prs ss
              Hfile Hslides ltac:(lia)) as (_ & _ & H3).
  destruct (H3 ltac:(simpl; lia)) as (d & Hrun & Hd).
  exists d. split; [done|]. rewrite Hd. f_equal. simpl.
  replace (Z.to_nat (Z.of_nat number + 1 - (Z.of_nat number + 1) + 1))
    with 1%nat by lia.
  replace (Z.to_nat (Z.of_nat number + 1 - 1)) with number by lia.
  rewrite (drop_S _ _ _ Hs). done.
Qed.

Lemma extract_slides_single_witness :
  ∃ d,
    extract_slides deck_path merged_path (Z.of_nat 1 + 1)
      (Some (Z.of_nat 1 + 1)) (disk (deck3 office_master))
    = (Ok merged_path,
       <[merged_path := PptxFile d]> (disk (deck3 office_master)))
    ∧ slides d = Ok [slide_b].
Proof.
  apply (extract_slides_single (disk (deck3 office_master)) deck_path
           merged_path 1 (deck3 office_master) [slide_a; slide_b; slide_c]).
  - vm_compute. reflexivity.
  - vm_compute. reflexivity.
  - reflexivity.
Defined.
